(** * iot_temperature: telemetry codec, modem session and receiver registry

    A shallow embedding of [temp_sim7080g.py], [temp_sim868.py] (the two
    MicroPython sensor nodes) and [receiver.py] (the MQTT-to-HTTP relay).

    Conventions of the embedding.
    - Python floats (sensor values, [time.time()]) are idealised as exact
      rationals [Q]; [int(x)] is truncation toward zero.
    - [bytes] values are [list byte].
    - [struct.pack(">hhh", ...)] is the MicroPython one (the sender files
      import [machine] and [ubinascii]): it stores the low 16 bits of each
      integer and performs no range check.
    - Effects of the sensor node (UART, clock, console) are threaded through
      an explicit [World]; exceptions and unbounded [while True] loops are
      results [Raise] and [Fuel] of a small monad. *)

From Stdlib Require Import ZArith QArith Qround List String Ascii Bool Lia Lqa.
From Stdlib Require Import Strings.Byte DecimalString.
Import ListNotations.

Local Open Scope Z_scope.

(** ** Python runtime primitives shared by the three programs *)

Module Py.

Definition bytes := list byte.

Definition Z_of_byte (b : byte) : Z := Z.of_N (Byte.to_N b).

(** The byte holding the low eight bits of [z]. *)
Definition byte_of_Z (z : Z) : byte :=
  match Byte.of_N (Z.to_N (Z.land z 255)) with
  | Some b => b
  | None => x00
  end.

(** [int(x)] on a float: truncation toward zero. *)
Definition int_of_float (x : Q) : Z := Z.quot (Qnum x) (Zpos (Qden x)).



(** [struct.pack(">h", n)] of MicroPython: high byte, low byte of the low
    16 bits, no overflow check. *)
Definition pack_h (n : Z) : bytes :=
  [byte_of_Z (Z.shiftr n 8); byte_of_Z n].

(** [struct.unpack(">h", [hi; lo])]: big-endian two's complement. *)
Definition unpack_h (hi lo : byte) : Z :=
  let u := Z.shiftl (Z_of_byte hi) 8 + Z_of_byte lo in
  if 32768 <=? u then u - 65536 else u.

(** [struct.unpack(">hhh", b)]; [None] stands for [struct.error]. *)
Definition unpack_hhh (b : bytes) : option (Z * Z * Z) :=
  match b with
  | [b0; b1; b2; b3; b4; b5] =>
      Some (unpack_h b0 b1, unpack_h b2 b3, unpack_h b4 b5)
  | _ => None
  end.


Definition int16_range (n : Z) : Prop := -32768 <= n <= 32767.

(** [s.split(sep)] for a one-character separator: never the empty list. *)
Fixpoint split (sep : ascii) (s : string) : list string :=
  match s with
  | EmptyString => [EmptyString]
  | String c s' =>
      if Ascii.eqb c sep then EmptyString :: split sep s'
      else match split sep s' with
           | h :: t => String c h :: t
           | [] => [String c EmptyString]
           end
  end.

(** A dict keyed by strings, in insertion order: assigning to a key that
    is present replaces its value in place, a new key goes last. *)
Section Dict.
Context {V : Type}.

Definition dict := list (string * V).

Fixpoint dict_get (d : dict) (k : string) : option V :=
  match d with
  | [] => None
  | (k', v) :: d' => if String.eqb k' k then Some v else dict_get d' k
  end.

Fixpoint dict_set (d : dict) (k : string) (v : V) : dict :=
  match d with
  | [] => [(k, v)]
  | (k', v') :: d' =>
      if String.eqb k' k then (k', v) :: d'
      else (k', v') :: dict_set d' k v
  end.

Definition dict_keys (d : dict) : list string := map fst d.
End Dict.
Arguments dict V : clear implicits.

End Py.

(** ** Telemetry codec *)

Module Codec.
Import Py.

(** [encode_sensor] of temp_sim7080g.py and temp_sim868.py (same body). *)
Definition encode_sensor (temp hum cpu_temp : Q) : bytes :=
  let temp_int := int_of_float (temp * 100) in
  let hum_int := int_of_float (hum * 10) in
  let cpu_int := int_of_float (cpu_temp * 100) in
  pack_h temp_int ++ pack_h hum_int ++ pack_h cpu_int.

Inductive DecodeError :=
| MalformedFrame (len : nat)   (* "Invalid payload length" *)
| StructError.                 (* [struct.error], caught by the handler *)

(** The decoding step of [on_message] in receiver.py: the length guard,
    [struct.unpack] and the three divisions. *)
Definition decode (payload : bytes) : DecodeError + (Q * Q * Q) :=
  if negb (Nat.eqb (List.length payload) 6) then
    inl (MalformedFrame (List.length payload))
  else
    match unpack_hhh payload with
    | Some (temp_int, hum_int, cpu_int) =>
        inr (temp_int # 100, hum_int # 10, cpu_int # 100)
    | None => inl StructError
    end.

End Codec.

(** ** Receiver: device registry and throttled forwarder (receiver.py) *)

Module Receiver.
Import Py.

Definition UPDATE_INTERVAL : Q := 60.

(** The value stored per device in [last_data]. *)
Record DeviceData := mkData {
  temp : Q;
  hum : Q;
  cpu : Q;
  last_mqtt : Q;
  last_http : Q
}.

(** The fields substituted into [HTTP_URL_TEMPLATE]. *)
Record HttpRequest := mkRequest {
  req_device : string;
  req_cputemp : Q;
  req_temp : Q;
  req_hum : Q
}.

(** What [requests.get] does: answer with a status or raise. *)
Inductive HttpResult :=
| Status (code : Z)
| RequestException.

Inductive Output :=
| HttpGet (r : HttpRequest)                     (* [requests.get(url, timeout=5)] *)
| PrintHttpSent (r : HttpRequest) (code : Z)    (* "HTTP sent: ..." *)
| PrintHttpFailed (device_id : string)          (* "HTTP request failed for ..." *)
| PrintInvalidLength (device_id : string) (len : nat)
| PrintErrorHandling.                           (* "Error handling message:" *)

(** The process state: the global [last_data], the outcomes the network
    will give to the successive [requests.get] calls (a call beyond the
    script is answered 200), and what the process has emitted, latest
    first. *)
Record State := mkState {
  last_data : dict DeviceData;
  net : list HttpResult;
  out : list Output
}.

Definition emit (o : Output) (s : State) : State :=
  mkState (last_data s) (net s) (o :: out s).

Definition requests_get (r : HttpRequest) (s : State) : HttpResult * State :=
  match net s with
  | [] => (Status 200, mkState (last_data s) [] (HttpGet r :: out s))
  | a :: rest => (a, mkState (last_data s) rest (HttpGet r :: out s))
  end.

Definition send_http (device_id : string) (temp hum cpu_temp : Q)
    (s : State) : State :=
  let url := mkRequest device_id cpu_temp temp hum in
  match requests_get url s with
  | (Status code, s1) => emit (PrintHttpSent url code) s1
  | (RequestException, s1) => emit (PrintHttpFailed device_id) s1
  end.

(** [on_message]; [now] is the value [time.time()] returns inside it. *)
Definition on_message (topic : string) (payload : bytes) (now : Q)
    (s : State) : State :=
  let topic_parts := split "/" topic in
  let device_id := List.last topic_parts EmptyString in
  match Codec.decode payload with
  | inl (Codec.MalformedFrame len) => emit (PrintInvalidLength device_id len) s
  | inl Codec.StructError => emit PrintErrorHandling s
  | inr (temp, hum, cpu_temp) =>
      let prev_http :=
        match dict_get (last_data s) device_id with
        | Some d => last_http d
        | None => 0%Q
        end in
      mkState
        (dict_set (last_data s) device_id
           (mkData temp hum cpu_temp now prev_http))
        (net s) (out s)
  end.

(** The [for] loop of [update_loop]. [data] is the very object stored in
    [last_data], so its fields are read from the current dict. *)
Fixpoint scan_items (now : Q) (items : list string) (s : State) : State :=
  match items with
  | [] => s
  | device_id :: rest =>
      match dict_get (last_data s) device_id with
      | Some data =>
          if Qle_bool UPDATE_INTERVAL (now - last_http data) then
            let s1 := send_http device_id (temp data) (hum data) (cpu data) s in
            let s2 :=
              mkState
                (dict_set (last_data s1) device_id
                   (mkData (temp data) (hum data) (cpu data) (last_mqtt data) now))
                (net s1) (out s1) in
            scan_items now rest s2
          else scan_items now rest s
      | None => scan_items now rest s
      end
  end.

(** One turn of the [while True] of [update_loop], at [time.time() = now]. *)
Definition scan (now : Q) (s : State) : State :=
  scan_items now (dict_keys (last_data s)) s.

(** [update_loop] over the successive clock readings. *)
Definition update_loop (clock : list Q) (s : State) : State :=
  fold_left (fun s now => scan now s) clock s.

(** The requests issued, earliest first. *)
Definition http_calls (o : list Output) : list HttpRequest :=
  rev (flat_map (fun e => match e with HttpGet r => [r] | _ => [] end) o).

End Receiver.

(** ** Sensor node: the world it runs in and the AT transport *)

Module Modem.
Import Py.

Inductive Exn :=
| OSError         (* [SIM_UART.write] failed *)
| UnicodeError.   (* [response.decode()] failed *)

(** How a call ends: it returns, it raises, or the model ran out of the
    iterations granted to a [while True] loop. *)
Inductive res (A : Type) :=
| Ret (a : A)
| Raise (e : Exn)
| Fuel.
Arguments Ret {A} a.
Arguments Raise {A} e.
Arguments Fuel {A}.

(** The operations of the modem session, named as in the specification. *)
Inductive Capability :=
| CapInit | CapCheckSignal | CapWaitNetwork | CapConnect | CapPublish.

(** The lines the programs print. *)
Inductive Msg :=
| MsgInitializing | MsgReady
| MsgNetworkOK (rssi : Z) | MsgWaitingNetwork | MsgNetworkLost
| MsgConnected | MsgConnectFailed
| MsgPublished (data : bytes) | MsgPublishFailed | MsgPublishGaveUp.

Inductive Event :=
| EvCall (c : Capability)              (* a capability function is entered *)
| EvWrite (data : bytes) (ok : bool)   (* [SIM_UART.write(data)], returned or raised *)
| EvPrint (m : Msg).

(** The world of a sensor node.
    - [ticks]: the millisecond clock [time.ticks_ms()]; only [time.sleep]
      lets it advance.
    - [rx]: what the successive polls of the UART receive buffer find
      ([SIM_UART.any()] / [SIM_UART.read]), one chunk per poll; nothing
      arrives once the script is exhausted.
    - [wr]: whether each successive [SIM_UART.write] raises; writes beyond
      the script succeed.
    - [trace]: what happened so far, latest first. *)
Record World := mkWorld {
  ticks : Z;
  rx : list bytes;
  wr : list bool;
  trace : list Event
}.

Definition M (A : Type) := World -> res A * World.

Definition ret {A} (a : A) : M A := fun w => (Ret a, w).

Definition bind {A B} (m : M A) (k : A -> M B) : M B :=
  fun w =>
    match m w with
    | (Ret a, w1) => k a w1
    | (Raise e, w1) => (Raise e, w1)
    | (Fuel, w1) => (Fuel, w1)
    end.

Definition raise {A} (e : Exn) : M A := fun w => (Raise e, w).

Definition out_of_fuel {A} : M A := fun w => (Fuel, w).

(** [try: body  except Exception as e: handler e] *)
Definition try_except {A} (body : M A) (handler : Exn -> M A) : M A :=
  fun w =>
    match body w with
    | (Raise e, w1) => handler e w1
    | r => r
    end.

Declare Scope py_scope.
Delimit Scope py_scope with py.
Notation "x <- m ;; k" := (bind m (fun x => k))
  (at level 61, m at next level, right associativity) : py_scope.
Notation "m ;; k" := (bind m (fun _ => k))
  (at level 61, right associativity) : py_scope.
Local Open Scope py_scope.

Definition log (e : Event) : M unit :=
  fun w => (Ret tt, mkWorld (ticks w) (rx w) (wr w) (e :: trace w)).

Definition print (m : Msg) : M unit := log (EvPrint m).

Definition enter (c : Capability) : M unit := log (EvCall c).

(** [time.sleep(ms / 1000)] *)
Definition sleep_ms (ms : Z) : M unit :=
  fun w => (Ret tt, mkWorld (ticks w + ms) (rx w) (wr w) (trace w)).

Definition ticks_ms : M Z := fun w => (Ret (ticks w), w).

(** [SIM_UART.write(data)] *)
Definition uart_write (data : bytes) : M unit :=
  fun w =>
    match wr w with
    | true :: rest =>
        (Raise OSError,
         mkWorld (ticks w) (rx w) rest (EvWrite data false :: trace w))
    | false :: rest =>
        (Ret tt, mkWorld (ticks w) (rx w) rest (EvWrite data true :: trace w))
    | [] =>
        (Ret tt, mkWorld (ticks w) (rx w) [] (EvWrite data true :: trace w))
    end.

(** [SIM_UART.read(SIM_UART.any())] when [SIM_UART.any()], else nothing. *)
Definition uart_poll : M bytes :=
  fun w =>
    match rx w with
    | [] => (Ret [], w)
    | chunk :: rest => (Ret chunk, mkWorld (ticks w) rest (wr w) (trace w))
    end.

Fixpoint starts_with (p s : bytes) : bool :=
  match p, s with
  | [], _ => true
  | _ :: _, [] => false
  | a :: p', b :: s' => Byte.eqb a b && starts_with p' s'
  end.

(** [p in s] on bytes. *)
Fixpoint contains (p s : bytes) : bool :=
  starts_with p s ||
  match s with
  | [] => false
  | _ :: s' => contains p s'
  end.

Definition b_OK : bytes := list_byte_of_string "OK".
Definition b_ERROR : bytes := list_byte_of_string "ERROR".

(** The [while] loop of [send_at]; [n] bounds the number of tests of the
    loop condition. *)
Fixpoint send_at_loop (n : nat) (t_start timeout : Z) (response : bytes)
    : M bytes :=
  match n with
  | O => out_of_fuel
  | S n' =>
      now <- ticks_ms ;;
      if now - t_start <? timeout then
        chunk <- uart_poll ;;
        let response := response ++ chunk in
        if contains b_OK response || contains b_ERROR response then
          ret response
        else
          sleep_ms 100 ;;
          send_at_loop n' t_start timeout response
      else ret response
  end.

(** Tests of the loop condition that a timeout allows: the clock advances
    by 100 ms per turn. *)
Definition polls (timeout : Z) : nat := S (S (Z.to_nat (timeout / 100))).

Section Transport.
(** [bytes.decode()] of the runtime; [None] when it raises. *)
Variable decode : bytes -> option string.

(** [send_at(cmd, timeout)], identical in both sender files (the
    default timeout differs: 2000 and 3000). *)
Definition send_at (cmd : string) (timeout : Z) : M string :=
  uart_write (list_byte_of_string (cmd ++ String "013" (String "010" EmptyString))) ;;
  t_start <- ticks_ms ;;
  response <- send_at_loop (polls timeout) t_start timeout [] ;;
  match decode response with
  | Some s => ret s
  | None => raise UnicodeError
  end.
End Transport.

(** The character of a double quote, for the f-strings. *)
Definition dq : string := String "034" EmptyString.

(** [str(n)] for a natural number. *)
Definition str_of_nat (n : nat) : string :=
  DecimalString.NilZero.string_of_uint (Nat.to_uint n).

Definition is_space (c : ascii) : bool :=
  let n := nat_of_ascii c in
  (Nat.eqb n 32 || (Nat.leb 9 n && Nat.leb n 13))%bool.

Fixpoint lstrip (s : string) : string :=
  match s with
  | EmptyString => EmptyString
  | String c s' => if is_space c then lstrip s' else s
  end.

Fixpoint rstrip (s : string) : string :=
  match s with
  | EmptyString => EmptyString
  | String c s' =>
      match rstrip s' with
      | EmptyString => if is_space c then EmptyString else String c EmptyString
      | t => String c t
      end
  end.

(** [s.strip()] *)
Definition strip (s : string) : string := rstrip (lstrip s).

(** [x != last] where [last] is [None] or an earlier float. *)
Definition differs (x : Q) (last : option Q) : bool :=
  match last with
  | None => true
  | Some y => negb (Qeq_bool x y)
  end.

(** What the sensor collaborators return in one cycle: [read_sensor()]
    gives [(temp, hum)] or [(None, None)], then [read_cpu_temp()]. *)
Record Reading := mkReading {
  r_temp : option Q;
  r_hum : option Q;
  r_cpu : option Q
}.

Definition CHECK_INTERVAL : Z := 10.
Definition MQTT_BROKER : string := "MQTT_URL_ADDRESS".
Definition MQTT_PORT : nat := 1883.

End Modem.

(** ** The NB-IoT node (temp_sim7080g.py) *)

Module Sim7080g.
Import Py Modem.
Local Open Scope py_scope.

Section Node.
(** [bytes.decode()] and [int(str)] of the runtime ([None] when they
    raise), and the identifier [hexlify(machine.unique_id()).decode()]. *)
Variable decode : bytes -> option string.
Variable int : string -> option Z.
Variable DEVICE_ID : string.

Definition MQTT_TOPIC : string := ("temperature/" ++ DEVICE_ID)%string.

Definition send_at (cmd : string) (timeout : Z) : M string :=
  Modem.send_at decode cmd timeout.

(** The body of the [try] of [nb_iot_check_signal]; [None] when any of
    its steps raises ([IndexError], [ValueError]). *)
Definition parse_rssi (resp : string) : option Z :=
  match nth_error (split ":" resp) 1 with
  | None => None
  | Some field =>
      match split "," field with
      | part0 :: _ => int (strip part0)
      | [] => None
      end
  end.

Definition nb_iot_check_signal : M Z :=
  enter CapCheckSignal ;;
  resp <- send_at "AT+CSQ" 2000 ;;
  match parse_rssi resp with
  | Some rssi => ret rssi
  | None => ret 0
  end.

Definition nb_iot_init : M unit :=
  enter CapInit ;;
  print MsgInitializing ;;
  send_at "AT" 2000 ;;
  send_at "AT+CFUN=1" 2000 ;;
  send_at "AT+CGATT=1" 2000 ;;
  send_at ("AT+CGDCONT=1," ++ dq ++ "IP" ++ dq ++ "," ++ dq ++ "internet" ++ dq)%string 2000 ;;
  sleep_ms 2000 ;;
  print MsgReady.

Fixpoint nb_iot_wait_network_loop (fuel : nat) : M unit :=
  match fuel with
  | O => out_of_fuel
  | S fuel' =>
      rssi <- nb_iot_check_signal ;;
      if (0 <? rssi) && (rssi <? 99) then
        print (MsgNetworkOK rssi)
      else
        print MsgWaitingNetwork ;;
        sleep_ms 5000 ;;
        nb_iot_wait_network_loop fuel'
  end.

Definition nb_iot_wait_network (fuel : nat) : M unit :=
  enter CapWaitNetwork ;;
  nb_iot_wait_network_loop fuel.

(** The [try] body of [mqtt_connect]. *)
Definition mqtt_connect_try : M unit :=
  send_at "AT+SMCONN=0" 2000 ;;
  send_at ("AT+SMCONF=" ++ dq ++ "CLIENTID" ++ dq ++ "," ++ dq ++ DEVICE_ID ++ dq)%string 2000 ;;
  send_at ("AT+SMCONF=" ++ dq ++ "URL" ++ dq ++ "," ++ dq ++ MQTT_BROKER ++ dq ++ ","
           ++ str_of_nat MQTT_PORT)%string 2000 ;;
  send_at ("AT+SMCONF=" ++ dq ++ "KEEPALIVE" ++ dq ++ ",60")%string 2000 ;;
  send_at "AT+SMCONN" 2000 ;;
  print MsgConnected.

Fixpoint mqtt_connect_loop (fuel : nat) : M unit :=
  match fuel with
  | O => out_of_fuel
  | S fuel' =>
      try_except mqtt_connect_try
        (fun _ =>
           print MsgConnectFailed ;;
           sleep_ms 5000 ;;
           mqtt_connect_loop fuel')
  end.

Definition mqtt_connect (fuel : nat) : M unit :=
  enter CapConnect ;;
  mqtt_connect_loop fuel.

(** The [try] body of [mqtt_publish]. *)
Definition mqtt_publish_try (topic : string) (data_bytes : bytes) : M bool :=
  let length := List.length data_bytes in
  send_at ("AT+SMPUB=" ++ dq ++ topic ++ dq ++ "," ++ str_of_nat length ++ ",1,0")%string 5000 ;;
  uart_write data_bytes ;;
  print (MsgPublished data_bytes) ;;
  ret true.

(** [for _ in range(n)] of [mqtt_publish], then the lines after it. *)
Fixpoint mqtt_publish_loop (fuel : nat) (n : nat) (topic : string)
    (data_bytes : bytes) : M bool :=
  match n with
  | O =>
      print MsgPublishGaveUp ;;
      ret false
  | S n' =>
      try_except (mqtt_publish_try topic data_bytes)
        (fun _ =>
           print MsgPublishFailed ;;
           mqtt_connect fuel ;;
           sleep_ms 2000 ;;
           mqtt_publish_loop fuel n' topic data_bytes)
  end.

Definition mqtt_publish (fuel : nat) (topic : string) (data_bytes : bytes)
    : M bool :=
  enter CapPublish ;;
  mqtt_publish_loop fuel 3 topic data_bytes.

(** The variables [last_temp], [last_hum], [last_cpu] of [main]. *)
Record Last := mkLast {
  last_temp : option Q;
  last_hum : option Q;
  last_cpu : option Q
}.

Definition initial : Last := mkLast None None None.

(** One turn of the [while True] of [main], on the reading [r]. *)
Definition main_cycle (fuel : nat) (r : Reading) (st : Last) : M Last :=
  rssi <- nb_iot_check_signal ;;
  (if (rssi =? 0) || (rssi =? 99) then
     print MsgNetworkLost ;;
     nb_iot_init ;;
     nb_iot_wait_network fuel ;;
     mqtt_connect fuel
   else ret tt) ;;
  match r_temp r, r_hum r, r_cpu r with
  | Some temp, Some hum, Some cpu_temp =>
      if differs temp (last_temp st) || differs hum (last_hum st) then
        let data_bytes := Codec.encode_sensor temp hum cpu_temp in
        mqtt_publish fuel MQTT_TOPIC data_bytes ;;
        sleep_ms (CHECK_INTERVAL * 1000) ;;
        ret (mkLast (Some temp) (Some hum) (Some cpu_temp))
      else
        sleep_ms (CHECK_INTERVAL * 1000) ;;
        ret st
  | _, _, _ =>
      sleep_ms (CHECK_INTERVAL * 1000) ;;
      ret st
  end.

(** The [while True] of [main] over the successive readings. *)
Fixpoint main_loop (fuel : nat) (readings : list Reading) (st : Last)
    : M Last :=
  match readings with
  | [] => ret st
  | r :: rest =>
      st' <- main_cycle fuel r st ;;
      main_loop fuel rest st'
  end.

Definition main (fuel : nat) (readings : list Reading) : M Last :=
  nb_iot_init ;;
  nb_iot_wait_network fuel ;;
  mqtt_connect fuel ;;
  main_loop fuel readings initial.
End Node.

End Sim7080g.

(** ** The 2G/GPRS node (temp_sim868.py) *)

Module Sim868.
Import Py Modem.
Local Open Scope py_scope.

Section Node.
Variable decode : bytes -> option string.
Variable DEVICE_ID : string.

Definition MQTT_TOPIC : string := ("temperature/" ++ DEVICE_ID)%string.

Definition send_at (cmd : string) (timeout : Z) : M string :=
  Modem.send_at decode cmd timeout.

Definition gprs_init : M unit :=
  enter CapInit ;;
  print MsgInitializing ;;
  send_at "AT" 3000 ;;
  send_at "AT+CFUN=1" 3000 ;;
  send_at "AT+CGATT=1" 3000 ;;
  send_at ("AT+SAPBR=3,1," ++ dq ++ "CONTYPE" ++ dq ++ "," ++ dq ++ "GPRS" ++ dq)%string 3000 ;;
  send_at ("AT+SAPBR=3,1," ++ dq ++ "APN" ++ dq ++ "," ++ dq ++ "internet" ++ dq)%string 3000 ;;
  send_at "AT+SAPBR=1,1" 3000 ;;
  send_at "AT+SAPBR=2,1" 3000 ;;
  print MsgReady.

(** The [try] body of [mqtt_connect]. *)
Definition mqtt_connect_try : M unit :=
  send_at "AT+CMQTTDISC=0" 3000 ;;
  send_at "AT+CMQTTSTART=0" 3000 ;;
  send_at ("AT+CMQTTACCQ=0," ++ dq ++ DEVICE_ID ++ dq)%string 3000 ;;
  send_at ("AT+CMQTTCONNECT=0," ++ dq ++ "tcp://" ++ MQTT_BROKER ++ ":"
           ++ str_of_nat MQTT_PORT ++ dq ++ ",60,1")%string 3000 ;;
  print MsgConnected.

Fixpoint mqtt_connect_loop (fuel : nat) : M unit :=
  match fuel with
  | O => out_of_fuel
  | S fuel' =>
      try_except mqtt_connect_try
        (fun _ =>
           print MsgConnectFailed ;;
           sleep_ms 5000 ;;
           mqtt_connect_loop fuel')
  end.

Definition mqtt_connect (fuel : nat) : M unit :=
  enter CapConnect ;;
  mqtt_connect_loop fuel.

(** The [try] body of [mqtt_publish]. *)
Definition mqtt_publish_try (topic : string) (data_bytes : bytes) : M bool :=
  let length := List.length data_bytes in
  send_at ("AT+CMQTTTOPIC=0," ++ dq ++ topic ++ dq ++ ","
           ++ str_of_nat (String.length topic))%string 3000 ;;
  send_at ("AT+CMQTTPAYLOAD=0," ++ str_of_nat length)%string 3000 ;;
  uart_write data_bytes ;;
  send_at "AT+CMQTTPUB=0,1,60" 3000 ;;
  print (MsgPublished data_bytes) ;;
  ret true.

Fixpoint mqtt_publish_loop (fuel : nat) (n : nat) (topic : string)
    (data_bytes : bytes) : M bool :=
  match n with
  | O =>
      print MsgPublishGaveUp ;;
      ret false
  | S n' =>
      try_except (mqtt_publish_try topic data_bytes)
        (fun _ =>
           print MsgPublishFailed ;;
           mqtt_connect fuel ;;
           sleep_ms 2000 ;;
           mqtt_publish_loop fuel n' topic data_bytes)
  end.

Definition mqtt_publish (fuel : nat) (topic : string) (data_bytes : bytes)
    : M bool :=
  enter CapPublish ;;
  mqtt_publish_loop fuel 3 topic data_bytes.

(** The variables [last_temp], [last_hum] of [main]. *)
Record Last := mkLast {
  last_temp : option Q;
  last_hum : option Q
}.

Definition initial : Last := mkLast None None.

(** One turn of the [while True] of [main], on the reading [r]. *)
Definition main_cycle (fuel : nat) (r : Reading) (st : Last) : M Last :=
  match r_temp r, r_hum r, r_cpu r with
  | Some temp, Some hum, Some cpu_temp =>
      if differs temp (last_temp st) || differs hum (last_hum st) then
        let data_bytes := Codec.encode_sensor temp hum cpu_temp in
        mqtt_publish fuel MQTT_TOPIC data_bytes ;;
        sleep_ms (CHECK_INTERVAL * 1000) ;;
        ret (mkLast (Some temp) (Some hum))
      else
        sleep_ms (CHECK_INTERVAL * 1000) ;;
        ret st
  | _, _, _ =>
      sleep_ms (CHECK_INTERVAL * 1000) ;;
      ret st
  end.

Fixpoint main_loop (fuel : nat) (readings : list Reading) (st : Last)
    : M Last :=
  match readings with
  | [] => ret st
  | r :: rest =>
      st' <- main_cycle fuel r st ;;
      main_loop fuel rest st'
  end.

Definition main (fuel : nat) (readings : list Reading) : M Last :=
  gprs_init ;;
  mqtt_connect fuel ;;
  main_loop fuel readings initial.
End Node.

End Sim868.

(** ** A reference runtime, to run the model on concrete inputs *)

Module RefRuntime.
Import Py Modem.

Definition is_ascii (b : byte) : bool := Z_of_byte b <? 128.

(** [bytes.decode()] restricted to ASCII text, which is what a modem
    sends: any other byte is taken to raise. *)
Definition decode (bs : bytes) : option string :=
  if forallb is_ascii bs then Some (string_of_list_byte bs) else None.

Definition digit (c : ascii) : option Z :=
  let n := nat_of_ascii c in
  if (Nat.leb 48 n && Nat.leb n 57)%bool then Some (Z.of_nat (n - 48)) else None.

Fixpoint digits (acc : Z) (s : string) : option Z :=
  match s with
  | EmptyString => Some acc
  | String c s' =>
      match digit c with
      | Some d => digits (10 * acc + d) s'
      | None => None
      end
  end.

(** [int(s)] on decimal text: blanks around, an optional sign, digits. *)
Definition int (s : string) : option Z :=
  match strip s with
  | EmptyString => None
  | String c t =>
      if Ascii.eqb c "-" then
        match t with
        | EmptyString => None
        | _ => option_map Z.opp (digits 0 t)
        end
      else if Ascii.eqb c "+" then
        match t with
        | EmptyString => None
        | _ => digits 0 t
        end
      else digits 0 (String c t)
  end.

Definition crlf : string := String "013" (String "010" EmptyString).

(** A modem answer as the bytes of one UART chunk. *)
Definition chunk (s : string) : bytes := list_byte_of_string s.

Definition world0 (rx : list bytes) (wr : list bool) : World :=
  mkWorld 0 rx wr [].

End RefRuntime.

(** * Properties *)

(** ** Codec *)

(** Linear arithmetic with quotients and remainders by constants. *)
Ltac euclid := Z.div_mod_to_equations; lia.

Section CodecFacts.
Import Py Codec.

Lemma Z_of_byte_range (b : byte) : 0 <= Z_of_byte b < 256.
Proof.
  unfold Z_of_byte. pose proof (Byte.to_N_bounded b). lia.
Qed.







Lemma decode_length (b : bytes) :
  List.length b = 6%nat -> exists x, decode b = inr x.
Proof.
  intros H. unfold decode. rewrite H. cbn [Nat.eqb negb].
  do 7 (destruct b as [|? b]; try discriminate H).
  cbn. eauto.
Qed.

Lemma decode_bad_length (b : bytes) :
  List.length b <> 6%nat -> decode b = inl (MalformedFrame (List.length b)).
Proof.
  intros H. unfold decode.
  destruct (Nat.eqb_spec (List.length b) 6); [contradiction | reflexivity].
Qed.
End CodecFacts.






(** ** Receiver *)

Section DictFacts.
Import Py.
Context {V : Type}.
Implicit Types (d : dict V) (k : string) (v : V).

Lemma dict_get_set_same d k v : dict_get (dict_set d k v) k = Some v.
Proof.
  induction d as [|[k' v'] d IH]; cbn.
  - now rewrite String.eqb_refl.
  - destruct (String.eqb k' k) eqn:E; cbn; rewrite E; auto.
Qed.


Lemma dict_get_app_fresh (pre d : dict V) k :
  ~ In k (dict_keys pre) -> dict_get (pre ++ d) k = dict_get d k.
Proof.
  induction pre as [|[k0 v0] pre IH]; cbn; intros Hn; [reflexivity|].
  destruct (String.eqb_spec k0 k) as [->|Hk]; [tauto|]. apply IH. tauto.
Qed.

Lemma dict_set_app_fresh (pre d : dict V) k v :
  ~ In k (dict_keys pre) -> dict_set (pre ++ d) k v = pre ++ dict_set d k v.
Proof.
  induction pre as [|[k0 v0] pre IH]; cbn; intros Hn; [reflexivity|].
  destruct (String.eqb_spec k0 k) as [->|Hk]; [tauto|]. rewrite IH; tauto.
Qed.


End DictFacts.

Section ReceiverFacts.
Import Py Receiver.

(** The forwarding condition of [update_loop]. *)
Definition due (now : Q) (d : DeviceData) : bool :=
  Qle_bool UPDATE_INTERVAL (now - last_http d).

(** The record after a forward at [now]. *)
Definition stamp (now : Q) (d : DeviceData) : DeviceData :=
  mkData (temp d) (hum d) (cpu d) (last_mqtt d) now.

Definition request_of (kv : string * DeviceData) : HttpRequest :=
  mkRequest (fst kv) (cpu (snd kv)) (temp (snd kv)) (hum (snd kv)).

Definition forward (now : Q) (kv : string * DeviceData) : string * DeviceData :=
  if due now (snd kv) then (fst kv, stamp now (snd kv)) else kv.

(** The requests issued between two states. *)
Definition new_calls (s s' : State) : list HttpRequest :=
  skipn (List.length (http_calls (out s))) (http_calls (out s')).


Lemma send_http_last_data k t h c s :
  last_data (send_http k t h c s) = last_data s.
Proof.
  unfold send_http, requests_get.
  destruct (net s) as [|[code|] rest]; reflexivity.
Qed.

Lemma send_http_calls k t h c s :
  http_calls (out (send_http k t h c s)) =
  http_calls (out s) ++ [mkRequest k c t h].
Proof.
  unfold send_http, requests_get, http_calls.
  destruct (net s) as [|[code|] rest]; reflexivity.
Qed.


Lemma forward_keys now l : dict_keys (map (forward now) l) = dict_keys l.
Proof.
  unfold dict_keys. rewrite map_map. apply map_ext.
  intros [k d]. unfold forward. cbn. now destruct (due now d).
Qed.

(** The loop, started on the keys of a suffix [l] of the dict. *)
Lemma scan_items_spec now l : forall pre s,
  last_data s = pre ++ l ->
  NoDup (dict_keys l) ->
  (forall k, In k (dict_keys l) -> ~ In k (dict_keys pre)) ->
  last_data (scan_items now (dict_keys l) s) = pre ++ map (forward now) l /\
  http_calls (out (scan_items now (dict_keys l) s)) =
    http_calls (out s) ++ map request_of (filter (fun kv => due now (snd kv)) l).
Proof.
  induction l as [|[k d] l IH]; intros pre s Hs Hnd Hfresh.
  - cbn. rewrite Hs, !app_nil_r. auto.
  - cbn [dict_keys map fst scan_items].
    inversion Hnd as [|? ? Hk Hnd']; subst.
    assert (Hpre : ~ In k (dict_keys pre)) by (apply Hfresh; now left).
    assert (Hget : dict_get (last_data s) k = Some d).
    { rewrite Hs, dict_get_app_fresh by assumption. cbn.
      now rewrite String.eqb_refl. }
    rewrite Hget. fold (due now d).
    assert (Hfresh' : forall v k', In k' (dict_keys l) ->
               ~ In k' (dict_keys (pre ++ [(k, v)]))).
    { intros v k' Hin. unfold dict_keys. rewrite map_app, in_app_iff. cbn.
      intros [Hp|[->|[]]].
      - apply (Hfresh k'); [now right | exact Hp].
      - exact (Hk Hin). }
    cbn [filter snd]. unfold forward at 1. cbn [fst snd map].
    destruct (due now d) eqn:Hdue.
    + match goal with |- context [scan_items now _ ?s2] =>
        destruct (IH (pre ++ [(k, stamp now d)]) s2) as [IH1 IH2] end.
      * cbn [last_data]. rewrite send_http_last_data, Hs.
        rewrite dict_set_app_fresh by assumption. cbn.
        rewrite String.eqb_refl. now rewrite <- app_assoc.
      * assumption.
      * apply Hfresh'.
      * fold (dict_keys l). rewrite IH1, IH2. cbn [out].
        rewrite send_http_calls. rewrite <- !app_assoc. auto.
    + destruct (IH (pre ++ [(k, d)]) s) as [IH1 IH2].
      * rewrite Hs. now rewrite <- app_assoc.
      * assumption.
      * apply Hfresh'.
      * fold (dict_keys l). rewrite IH1, IH2. rewrite <- !app_assoc. auto.
Qed.

Lemma scan_spec now s :
  NoDup (dict_keys (last_data s)) ->
  last_data (scan now s) = map (forward now) (last_data s) /\
  new_calls s (scan now s) =
    map request_of (filter (fun kv => due now (snd kv)) (last_data s)).
Proof.
  intros Hnd. unfold scan, new_calls.
  destruct (scan_items_spec now (last_data s) [] s eq_refl Hnd) as [H1 H2].
  { intros k _ []. }
  rewrite H1, H2. split; [reflexivity|].
  rewrite skipn_app, skipn_all, Nat.sub_diag. reflexivity.
Qed.

Lemma scan_keys now s :
  NoDup (dict_keys (last_data s)) ->
  dict_keys (last_data (scan now s)) = dict_keys (last_data s).
Proof.
  intros Hnd. rewrite (proj1 (scan_spec now s Hnd)). apply forward_keys.
Qed.

End ReceiverFacts.

(** C6. A payload whose length is not 6 is refused with [MalformedFrame]
    and [on_message] leaves the registry as it was; a payload of length 6
    always decodes, whatever its bytes, and [on_message] stores the decoded
    values under the device of the topic. *)
Theorem C6_decode_checks_length_only (b : Py.bytes) :
  (List.length b <> 6%nat ->
   Codec.decode b = inl (Codec.MalformedFrame (List.length b)) /\
   forall topic now s,
     Receiver.last_data (Receiver.on_message topic b now s) =
     Receiver.last_data s) /\
  (List.length b = 6%nat ->
   exists t h c,
     Codec.decode b = inr (t, h, c) /\
     forall topic now s,
     exists d,
       Py.dict_get (Receiver.last_data (Receiver.on_message topic b now s))
         (List.last (Py.split "/" topic) EmptyString) = Some d /\
       Receiver.temp d = t /\ Receiver.hum d = h /\ Receiver.cpu d = c /\
       Receiver.last_mqtt d = now).
Proof.
  split; intros Hlen.
  - split; [now apply decode_bad_length|].
    intros topic now s. unfold Receiver.on_message.
    now rewrite decode_bad_length.
  - destruct (decode_length b Hlen) as [[[t h] c] Hd].
    exists t, h, c. split; [exact Hd|].
    intros topic now s. unfold Receiver.on_message. rewrite Hd.
    cbn [Receiver.last_data]. eexists. rewrite dict_get_set_same.
    split; [reflexivity|]. cbn. auto.
Qed.

Lemma C6_decode_checks_length_only_witness :
  Codec.decode [x01; x02; x03] = inl (Codec.MalformedFrame 3) /\
  exists t h c, Codec.decode [xff; xff; x80; x00; x7f; xff] = inr (t, h, c).
Proof.
  split.
  - apply (proj1 (C6_decode_checks_length_only [x01; x02; x03])).
    cbn. discriminate.
  - destruct (proj2 (C6_decode_checks_length_only [xff; xff; x80; x00; x7f; xff])
                eq_refl) as (t & h & c & Hd & _).
    now exists t, h, c.
Defined.

Section ForwarderClaims.
Import Py Receiver.






End ForwarderClaims.

(** ** Sensor node: traces of the modem session *)

Section TraceFacts.
Import Py Modem.
Local Open Scope py_scope.

(** The events added between two worlds, latest first. *)
Definition since (w w' : World) : list Event :=
  firstn (List.length (trace w') - List.length (trace w)) (trace w').

(** The events that show the session policy: entries into the capability
    functions and the three outcomes of a publish. *)
Definition policy (e : Event) : bool :=
  match e with
  | EvCall _ => true
  | EvPrint (MsgPublished _) => true
  | EvPrint MsgPublishFailed => true
  | EvPrint MsgPublishGaveUp => true
  | _ => false
  end.

Definition is_session_call (e : Event) : bool :=
  match e with
  | EvCall CapInit | EvCall CapCheckSignal | EvCall CapWaitNetwork => true
  | _ => false
  end.

Definition is_publish_call (e : Event) : bool :=
  match e with
  | EvCall CapPublish => true
  | _ => false
  end.

Lemma since_app (w w' : World) new :
  trace w' = new ++ trace w -> since w w' = new.
Proof.
  intros E. unfold since. rewrite E, length_app.
  replace (List.length new + List.length (trace w) - List.length (trace w))%nat
    with (List.length new + 0)%nat by lia.
  rewrite firstn_app_2. cbn. apply app_nil_r.
Qed.

(** [m] only extends the trace, by events satisfying [Q]. *)
Definition emits {A} (Q : Event -> Prop) (m : M A) : Prop :=
  forall w r w', m w = (r, w') ->
    exists new, trace w' = new ++ trace w /\ Forall Q new.

(** [m] always comes to an end (it contains no unbounded loop). *)
Definition total {A} (m : M A) : Prop :=
  forall w r w', m w = (r, w') -> r <> Fuel.

Lemma bind_inv {A B} (m : M A) (k : A -> M B) w r w' :
  bind m k w = (r, w') ->
  (exists a w1, m w = (Ret a, w1) /\ k a w1 = (r, w')) \/
  (exists e, m w = (Raise e, w') /\ r = Raise e) \/
  (m w = (Fuel, w') /\ r = Fuel).
Proof.
  unfold bind. destruct (m w) as [[a|e|] w1]; intros H.
  - left. eauto.
  - injection H as <- <-. right. left. eauto.
  - injection H as <- <-. right. right. eauto.
Qed.

Lemma try_inv {A} (m : M A) (h : Exn -> M A) w r w' :
  try_except m h w = (r, w') ->
  (exists e w1, m w = (Raise e, w1) /\ h e w1 = (r, w')) \/
  (m w = (r, w') /\ forall e, r <> Raise e).
Proof.
  unfold try_except. destruct (m w) as [[a|e|] w1]; intros H.
  - injection H as <- <-. right. split; [reflexivity | discriminate].
  - left. eauto.
  - injection H as <- <-. right. split; [reflexivity | discriminate].
Qed.

Section Emits.
Variable Q : Event -> Prop.

Lemma emits_ret {A} (a : A) : emits Q (ret a).
Proof. intros w r w' H. injection H as <- <-. exists []. auto. Qed.

Lemma emits_raise {A} e : emits Q (@raise A e).
Proof. intros w r w' H. injection H as <- <-. exists []. auto. Qed.

Lemma emits_out_of_fuel {A} : emits Q (@out_of_fuel A).
Proof. intros w r w' H. injection H as <- <-. exists []. auto. Qed.

Lemma emits_bind {A B} (m : M A) (k : A -> M B) :
  emits Q m -> (forall a, emits Q (k a)) -> emits Q (bind m k).
Proof.
  intros Hm Hk w r w' H.
  destruct (bind_inv _ _ _ _ _ H) as [(a & w1 & H1 & H2)|[(e & H1 & _)|[H1 _]]].
  - destruct (Hm _ _ _ H1) as (n1 & E1 & F1).
    destruct (Hk a _ _ _ H2) as (n2 & E2 & F2).
    exists (n2 ++ n1). rewrite E2, E1, app_assoc. split; [reflexivity|].
    apply Forall_app; auto.
  - eauto.
  - eauto.
Qed.

Lemma emits_try {A} (m : M A) (h : Exn -> M A) :
  emits Q m -> (forall e, emits Q (h e)) -> emits Q (try_except m h).
Proof.
  intros Hm Hh w r w' H.
  destruct (try_inv _ _ _ _ _ H) as [(e & w1 & H1 & H2)|[H1 _]].
  - destruct (Hm _ _ _ H1) as (n1 & E1 & F1).
    destruct (Hh e _ _ _ H2) as (n2 & E2 & F2).
    exists (n2 ++ n1). rewrite E2, E1, app_assoc. split; [reflexivity|].
    apply Forall_app; auto.
  - eauto.
Qed.

Lemma emits_log e : Q e -> emits Q (log e).
Proof.
  intros He w r w' H. injection H as <- <-. exists [e]. cbn. auto.
Qed.

Lemma emits_sleep ms : emits Q (sleep_ms ms).
Proof. intros w r w' H. injection H as <- <-. exists []. auto. Qed.

Lemma emits_ticks : emits Q ticks_ms.
Proof. intros w r w' H. injection H as <- <-. exists []. auto. Qed.

Lemma emits_poll : emits Q uart_poll.
Proof.
  intros w r w' H. unfold uart_poll in H.
  destruct (rx w); injection H as <- <-; exists []; auto.
Qed.

Hypothesis Q_write : forall data ok, Q (EvWrite data ok).

Lemma emits_write data : emits Q (uart_write data).
Proof.
  intros w r w' H. unfold uart_write in H.
  destruct (wr w) as [|[|] rest]; injection H as <- <-;
    eexists [_]; cbn; auto.
Qed.

Lemma emits_send_at_loop n : forall t_start timeout response,
  emits Q (send_at_loop n t_start timeout response).
Proof.
  induction n as [|n IH]; intros; cbn [send_at_loop].
  - apply emits_out_of_fuel.
  - apply emits_bind; [apply emits_ticks|]. intros now.
    destruct (now - t_start <? timeout); [|apply emits_ret].
    apply emits_bind; [apply emits_poll|]. intros chunk.
    destruct (_ || _); [apply emits_ret|].
    apply emits_bind; [apply emits_sleep | intros; apply IH].
Qed.

Lemma emits_send_at decode cmd timeout : emits Q (send_at decode cmd timeout).
Proof.
  unfold send_at.
  apply emits_bind; [apply emits_write|]. intros _.
  apply emits_bind; [apply emits_ticks|]. intros t_start.
  apply emits_bind; [apply emits_send_at_loop|]. intros response.
  destruct (decode response); [apply emits_ret | apply emits_raise].
Qed.
End Emits.

Lemma total_ret {A} (a : A) : total (ret a).
Proof. intros w r w' H. injection H as <- <-. discriminate. Qed.

Lemma total_raise {A} e : total (@raise A e).
Proof. intros w r w' H. injection H as <- <-. discriminate. Qed.

Lemma total_bind {A B} (m : M A) (k : A -> M B) :
  total m -> (forall a, total (k a)) -> total (bind m k).
Proof.
  intros Hm Hk w r w' H.
  destruct (bind_inv _ _ _ _ _ H) as [(a & w1 & H1 & H2)|[(e & H1 & ->)|[H1 _]]].
  - eapply Hk; eauto.
  - discriminate.
  - exfalso. eapply Hm; eauto.
Qed.

Lemma total_log e : total (log e).
Proof. intros w r w' H. injection H as <- <-. discriminate. Qed.

Lemma total_sleep ms : total (sleep_ms ms).
Proof. intros w r w' H. injection H as <- <-. discriminate. Qed.

Lemma total_write data : total (uart_write data).
Proof.
  intros w r w' H. unfold uart_write in H.
  destruct (wr w) as [|[|] rest]; injection H as <- <-; discriminate.
Qed.

(** The polling loop of [send_at] ends before its bound is used up: each
    turn moves the clock 100 ms closer to the deadline. *)
Lemma send_at_loop_total n : forall t_start timeout response w r w',
  t_start + timeout - ticks w <= 100 * (Z.of_nat n - 1) ->
  (1 <= n)%nat ->
  send_at_loop n t_start timeout response w = (r, w') -> r <> Fuel.
Proof.
  induction n as [|n IH]; intros t_start timeout response w r w' Hb Hn H; [lia|].
  cbn [send_at_loop] in H. unfold bind, ticks_ms in H.
  rewrite Nat2Z.inj_succ in Hb.
  destruct (Z.ltb_spec (ticks w - t_start) timeout) as [Hlt|Hge].
  - unfold uart_poll in H.
    destruct (rx w) as [|chunk rest];
      (destruct (_ || _); [injection H as <- <-; discriminate|]);
      cbn [sleep_ms ticks] in H; refine (IH _ _ _ _ _ _ _ _ H); cbn [ticks]; lia.
  - unfold ret in H. injection H as <- <-. discriminate.
Qed.

Lemma total_send_at decode cmd timeout : total (send_at decode cmd timeout).
Proof.
  unfold send_at.
  apply total_bind; [apply total_write|]. intros _.
  intros w r w' H. unfold bind, ticks_ms in H.
  destruct (send_at_loop _ _ _ _ w) as [[resp|e|] w1] eqn:E.
  - destruct (decode resp); injection H as <- <-; discriminate.
  - injection H as <- <-. discriminate.
  - exfalso. eapply send_at_loop_total; [| |exact E|reflexivity].
    + unfold polls. rewrite !Nat2Z.inj_succ.
      destruct (Z.le_gt_cases 0 timeout).
      * rewrite Z2Nat.id by (apply Z.div_pos; lia). euclid.
      * assert (Z.of_nat (Z.to_nat (timeout / 100)) >= 0) by lia. lia.
    + unfold polls. lia.
Qed.
End TraceFacts.

(** ** Sensor node: the publish retry policy *)

Section RetryPolicy.
Import Py Modem.
Local Open Scope py_scope.

(** An event outside the session policy: a UART write or another print. *)
Definition quiet (e : Event) : Prop := policy e = false.

Lemma quiet_write data ok : quiet (EvWrite data ok).
Proof. reflexivity. Qed.

Lemma filter_policy_quiet new : Forall quiet new -> filter policy new = [].
Proof.
  induction 1 as [|e new He _ IH]; [reflexivity|]. cbn. now rewrite He.
Qed.

(** The retry policy in the words of the specification: up to [n]
    attempts; a failed attempt is followed by a full [connectBroker] and
    a short delay; when none is left the failure is returned. *)
Fixpoint spec_retry (attempt : M bool) (connectBroker : M unit) (n : nat)
    : M bool :=
  match n with
  | O => print MsgPublishGaveUp ;; ret false
  | S n' =>
      try_except attempt
        (fun _ =>
           print MsgPublishFailed ;;
           connectBroker ;;
           sleep_ms 2000 ;;
           spec_retry attempt connectBroker n')
  end.

Definition spec_publish (attempt : M bool) (connectBroker : M unit) : M bool :=
  enter CapPublish ;; spec_retry attempt connectBroker 3.

(** [k] failed attempts, each followed by a [connectBroker], latest first. *)
Fixpoint failed_attempts (k : nat) : list Event :=
  match k with
  | O => []
  | S k' => EvCall CapConnect :: EvPrint MsgPublishFailed :: failed_attempts k'
  end.

Lemma failed_attempts_snoc k :
  failed_attempts k ++ [EvCall CapConnect; EvPrint MsgPublishFailed] =
  failed_attempts (S k).
Proof. induction k as [|k IH]; [reflexivity|]. cbn in *. now rewrite IH. Qed.

(** What one attempt does: it publishes and returns [True], or raises
    having shown nothing of the policy. *)
Definition attempt_post (data : bytes) (m : M bool) : Prop :=
  forall w r w', m w = (r, w') ->
    exists new, trace w' = new ++ trace w /\
      ((r = Ret true /\ filter policy new = [EvPrint (MsgPublished data)]) \/
       (exists e, r = Raise e /\ filter policy new = [])).

(** What [connectBroker] does: it never raises, and enters once. *)
Definition connect_post (m : M unit) : Prop :=
  forall w r w', m w = (r, w') ->
    (r = Ret tt \/ r = Fuel) /\
    exists new, trace w' = new ++ trace w /\
      filter policy new = [EvCall CapConnect].

Lemma attempt_post_bind {A} data (m : M A) (k : A -> M bool) :
  emits quiet m -> total m -> (forall a, attempt_post data (k a)) ->
  attempt_post data (bind m k).
Proof.
  intros Hq Ht Hk w r w' H.
  destruct (bind_inv _ _ _ _ _ H) as [(a & w1 & H1 & H2)|[(e & H1 & ->)|[H1 _]]].
  - destruct (Hq _ _ _ H1) as (n1 & E1 & F1).
    destruct (Hk a _ _ _ H2) as (n2 & E2 & C).
    exists (n2 ++ n1). rewrite E2, E1, app_assoc. split; [reflexivity|].
    rewrite filter_app, (filter_policy_quiet n1 F1), app_nil_r. exact C.
  - destruct (Hq _ _ _ H1) as (n1 & E1 & F1).
    exists n1. split; [exact E1|]. right. exists e.
    split; [reflexivity | now apply filter_policy_quiet].
  - exfalso. eapply Ht; eauto.
Qed.

Lemma attempt_post_done data :
  attempt_post data (print (MsgPublished data) ;; ret true).
Proof.
  intros w r w' H. injection H as <- <-.
  exists [EvPrint (MsgPublished data)]. split; [reflexivity|]. now left.
Qed.

Section Retry.
Variable data : bytes.
Variable attempt : M bool.
Variable connectBroker : M unit.
Hypothesis attempt_ok : attempt_post data attempt.
Hypothesis connect_ok : connect_post connectBroker.

(** The three ways the retry loop can go. *)
Lemma spec_retry_cases n : forall w r w',
  spec_retry attempt connectBroker n w = (r, w') ->
  exists new, trace w' = new ++ trace w /\
    ((r = Ret true /\ exists k, (k < n)%nat /\
        filter policy new = EvPrint (MsgPublished data) :: failed_attempts k) \/
     (r = Ret false /\
        filter policy new = EvPrint MsgPublishGaveUp :: failed_attempts n) \/
     (r = Fuel /\ exists k, (1 <= k <= n)%nat /\
        filter policy new = failed_attempts k)).
Proof.
  induction n as [|n IH]; intros w r w' H.
  - injection H as <- <-. exists [EvPrint MsgPublishGaveUp].
    split; [reflexivity|]. right. left. auto.
  - cbn [spec_retry] in H.
    destruct (try_inv _ _ _ _ _ H) as [(e & w1 & H1 & H2)|[H1 Hr]].
    + destruct (attempt_ok _ _ _ H1) as (n1 & E1 & [[? _]|(e' & _ & F1)]);
        [discriminate|].
      unfold bind at 1 in H2. cbn [print log] in H2.
      apply bind_inv in H2.
      destruct H2 as [([] & w2 & H2 & H3)|[(e2 & H2 & ->)|[H2 ->]]].
      * destruct (connect_ok _ _ _ H2) as (_ & n2 & E2 & F2).
        cbn [trace] in E2.
        unfold bind at 1 in H3. cbn [sleep_ms] in H3.
        destruct (IH _ _ _ H3) as (n3 & E3 & C). cbn [trace] in E3.
        exists (n3 ++ n2 ++ EvPrint MsgPublishFailed :: n1).
        split.
        { rewrite E3, E2, E1. rewrite <- !app_assoc. reflexivity. }
        rewrite !filter_app, F2. cbn [filter policy]. rewrite F1. cbn [app].
        destruct C as [(-> & k & Hk & Fk)|[(-> & Fk)|(-> & k & Hk & Fk)]].
        -- left. split; [reflexivity|]. exists (S k). split; [lia|].
           rewrite Fk, <- failed_attempts_snoc. reflexivity.
        -- right. left. split; [reflexivity|].
           rewrite Fk, <- failed_attempts_snoc. reflexivity.
        -- right. right. split; [reflexivity|]. exists (S k). split; [lia|].
           rewrite Fk, <- failed_attempts_snoc. reflexivity.
      * destruct (connect_ok _ _ _ H2) as ([?|?] & _); discriminate.
      * destruct (connect_ok _ _ _ H2) as (_ & n2 & E2 & F2).
        cbn [trace] in E2.
        exists (n2 ++ EvPrint MsgPublishFailed :: n1). split.
        { rewrite E2, E1. rewrite <- !app_assoc. reflexivity. }
        right. right. split; [reflexivity|]. exists 1%nat. split; [lia|].
        rewrite !filter_app, F2. cbn [filter policy]. rewrite F1. reflexivity.
    + destruct (attempt_ok _ _ _ H1) as (n1 & E1 & [[-> F1]|(e' & -> & _)]).
      * exists n1. split; [exact E1|]. left. split; [reflexivity|].
        exists 0%nat. split; [lia | exact F1].
      * exfalso. now apply (Hr e').
Qed.

End Retry.
End RetryPolicy.

(** ** Sensor node: connectBroker *)

Section ConnectPolicy.
Import Py Modem.
Local Open Scope py_scope.

(** [connectBroker] in the words of the specification: run the command
    sequence; on any raised error sleep a fixed backoff and retry, without
    bound. *)
Fixpoint spec_connect_loop (sequence : M unit) (fuel : nat) : M unit :=
  match fuel with
  | O => out_of_fuel
  | S fuel' =>
      try_except sequence
        (fun _ =>
           print MsgConnectFailed ;;
           sleep_ms 5000 ;;
           spec_connect_loop sequence fuel')
  end.

Definition spec_connect (sequence : M unit) (fuel : nat) : M unit :=
  enter CapConnect ;; spec_connect_loop sequence fuel.

Variable sequence : M unit.
Hypothesis sequence_quiet : emits quiet sequence.

Lemma spec_connect_loop_quiet fuel : emits quiet (spec_connect_loop sequence fuel).
Proof.
  induction fuel as [|fuel IH]; cbn [spec_connect_loop].
  - apply emits_out_of_fuel.
  - apply emits_try; [assumption|]. intros _.
    apply emits_bind; [now apply emits_log|]. intros _.
    apply emits_bind; [apply emits_sleep|]. intros _. exact IH.
Qed.

Lemma spec_connect_loop_result fuel : forall w r w',
  spec_connect_loop sequence fuel w = (r, w') -> r = Ret tt \/ r = Fuel.
Proof.
  induction fuel as [|fuel IH]; intros w r w' H.
  - injection H as <- <-. now right.
  - cbn [spec_connect_loop] in H.
    destruct (try_inv _ _ _ _ _ H) as [(e & w1 & H1 & H2)|[H1 Hr]].
    + unfold bind at 1 in H2. cbn [print log] in H2.
      unfold bind at 1 in H2. cbn [sleep_ms] in H2. eauto.
    + destruct r as [[]|e|]; [now left | now destruct (Hr e) | now right].
Qed.

Lemma spec_connect_post fuel : connect_post (spec_connect sequence fuel).
Proof.
  intros w r w' H. unfold spec_connect, bind, enter, log in H.
  split; [eapply spec_connect_loop_result; eauto|].
  destruct (spec_connect_loop_quiet _ _ _ _ H) as (new & E & F).
  cbn [trace] in E. exists (new ++ [EvCall CapConnect]).
  split; [now rewrite E, <- app_assoc|].
  now rewrite filter_app, (filter_policy_quiet _ F).
Qed.
End ConnectPolicy.

(** Straight-line code of prints, sleeps, writes and [send_at]. *)
Ltac quiet_code :=
  repeat first
    [ apply emits_send_at; exact quiet_write
    | apply emits_write; exact quiet_write
    | apply emits_bind; [|intros ?]
    | apply emits_log; exact eq_refl
    | apply emits_sleep
    | apply emits_ret ].

Ltac total_code :=
  repeat first
    [ apply total_send_at
    | apply total_write
    | apply total_bind; [|intros ?]
    | apply total_log
    | apply total_sleep
    | apply total_ret ].

Section VariantFacts.
Import Py Modem.
Local Open Scope py_scope.

Variable decode : bytes -> option string.
Variable DEVICE_ID : string.

(** *** NB-IoT *)

Lemma nb_connect_refines fuel :
  Sim7080g.mqtt_connect decode DEVICE_ID fuel =
  spec_connect (Sim7080g.mqtt_connect_try decode DEVICE_ID) fuel.
Proof.
  unfold Sim7080g.mqtt_connect, spec_connect. f_equal.
  induction fuel as [|fuel IH]; [reflexivity|].
  cbn [Sim7080g.mqtt_connect_loop spec_connect_loop]. now rewrite IH.
Qed.

Lemma nb_publish_refines fuel topic data :
  Sim7080g.mqtt_publish decode DEVICE_ID fuel topic data =
  spec_publish (Sim7080g.mqtt_publish_try decode topic data)
    (Sim7080g.mqtt_connect decode DEVICE_ID fuel).
Proof. reflexivity. Qed.

Lemma nb_connect_try_quiet : emits quiet (Sim7080g.mqtt_connect_try decode DEVICE_ID).
Proof. unfold Sim7080g.mqtt_connect_try, Sim7080g.send_at, print. quiet_code. Qed.

Lemma nb_connect_try_total : total (Sim7080g.mqtt_connect_try decode DEVICE_ID).
Proof. unfold Sim7080g.mqtt_connect_try, Sim7080g.send_at, print. total_code. Qed.

Lemma nb_connect_post fuel : connect_post (Sim7080g.mqtt_connect decode DEVICE_ID fuel).
Proof.
  rewrite nb_connect_refines.
  exact (spec_connect_post _ nb_connect_try_quiet fuel).
Qed.

Lemma nb_publish_try_post topic data :
  attempt_post data (Sim7080g.mqtt_publish_try decode topic data).
Proof.
  unfold Sim7080g.mqtt_publish_try, Sim7080g.send_at.
  apply attempt_post_bind; [quiet_code | total_code | intros _].
  apply attempt_post_bind; [quiet_code | total_code | intros _].
  apply attempt_post_done.
Qed.

(** *** 2G/GPRS *)

Lemma gprs_connect_refines fuel :
  Sim868.mqtt_connect decode DEVICE_ID fuel =
  spec_connect (Sim868.mqtt_connect_try decode DEVICE_ID) fuel.
Proof.
  unfold Sim868.mqtt_connect, spec_connect. f_equal.
  induction fuel as [|fuel IH]; [reflexivity|].
  cbn [Sim868.mqtt_connect_loop spec_connect_loop]. now rewrite IH.
Qed.

Lemma gprs_publish_refines fuel topic data :
  Sim868.mqtt_publish decode DEVICE_ID fuel topic data =
  spec_publish (Sim868.mqtt_publish_try decode topic data)
    (Sim868.mqtt_connect decode DEVICE_ID fuel).
Proof. reflexivity. Qed.

Lemma gprs_connect_try_quiet : emits quiet (Sim868.mqtt_connect_try decode DEVICE_ID).
Proof. unfold Sim868.mqtt_connect_try, Sim868.send_at, print. quiet_code. Qed.

Lemma gprs_connect_try_total : total (Sim868.mqtt_connect_try decode DEVICE_ID).
Proof. unfold Sim868.mqtt_connect_try, Sim868.send_at, print. total_code. Qed.

Lemma gprs_connect_post fuel : connect_post (Sim868.mqtt_connect decode DEVICE_ID fuel).
Proof.
  rewrite gprs_connect_refines.
  exact (spec_connect_post _ gprs_connect_try_quiet fuel).
Qed.

Lemma gprs_publish_try_post topic data :
  attempt_post data (Sim868.mqtt_publish_try decode topic data).
Proof.
  unfold Sim868.mqtt_publish_try, Sim868.send_at.
  apply attempt_post_bind; [quiet_code | total_code | intros _].
  apply attempt_post_bind; [quiet_code | total_code | intros _].
  apply attempt_post_bind; [quiet_code | total_code | intros _].
  apply attempt_post_bind; [quiet_code | total_code | intros _].
  apply attempt_post_done.
Qed.

End VariantFacts.


(** ** Sensor node: runs on which nothing raises *)

Section CalmRuns.
Import Py Modem.
Local Open Scope py_scope.

Variable decode : bytes -> option string.

(** No UART write of the script raises, and [decode] accepts whatever
    run of consecutive chunks a [send_at] may have accumulated. *)
Definition calm (w : World) : Prop :=
  Forall (fun raises => raises = false) (wr w) /\
  forall i n, decode (List.concat (firstn n (skipn i (rx w)))) <> None.

(** The events other than UART writes. *)
Definition shown (e : Event) : bool :=
  match e with
  | EvWrite _ _ => false
  | _ => true
  end.

Lemma send_at_loop_response n : forall t_start timeout response w r w',
  send_at_loop n t_start timeout response w = (r, w') ->
  exists m, rx w' = skipn m (rx w) /\ wr w' = wr w /\ trace w' = trace w /\
    (r = Fuel \/ r = Ret (response ++ List.concat (firstn m (rx w)))).
Proof.
  induction n as [|n IH]; intros t_start timeout response w r w' H.
  - injection H as <- <-. exists 0%nat. cbn. auto.
  - cbn [send_at_loop] in H. unfold bind, ticks_ms in H.
    destruct (ticks w - t_start <? timeout).
    + unfold uart_poll in H. destruct (rx w) as [|chunk rest] eqn:Erx.
      * destruct (_ || _).
        -- injection H as <- <-. exists 0%nat. cbn. rewrite Erx. auto.
        -- cbn [sleep_ms] in H. apply IH in H.
           destruct H as (m & H1 & H2 & H3 & H4). cbn [rx wr trace] in *.
           rewrite Erx in *. exists m.
           rewrite skipn_nil in H1. rewrite firstn_nil in H4.
           rewrite skipn_nil, firstn_nil. cbn [List.concat] in *.
           rewrite !app_nil_r in H4. rewrite app_nil_r. auto.
      * destruct (_ || _).
        -- injection H as <- <-. exists 1%nat. cbn. rewrite app_nil_r. auto.
        -- cbn [sleep_ms] in H. apply IH in H.
           destruct H as (m & H1 & H2 & H3 & H4). cbn [rx wr trace] in *.
           exists (S m). cbn [skipn firstn List.concat].
           rewrite <- app_assoc in H4. auto.
    + injection H as <- <-. exists 0%nat. cbn. rewrite app_nil_r. auto.
Qed.

(** [send_at] raises only when the UART write or [decode] raised; an
    ERROR answer or a timeout is a returned string. *)
Lemma send_at_raises_only cmd timeout w r w' :
  send_at decode cmd timeout w = (r, w') ->
  r <> Fuel /\
  (forall e, r = Raise e ->
     (e = OSError /\ hd_error (wr w) = Some true) \/
     (e = UnicodeError /\ exists m, decode (List.concat (firstn m (rx w))) = None)).
Proof.
  intros H. split; [eapply total_send_at; eauto|].
  intros e ->. unfold send_at in H. unfold bind at 1 in H.
  unfold uart_write in H.
  destruct (wr w) as [|[|] rest] eqn:Ewr.
  - right. unfold bind, ticks_ms in H.
    destruct (send_at_loop _ _ _ _ _) as [[resp|e'|] w1] eqn:E; cbn [ticks] in E.
    + destruct (send_at_loop_response _ _ _ _ _ _ _ E) as (m & _ & _ & _ & [C|C]);
        [discriminate|]. injection C as ->. cbn [rx app] in H.
      destruct (decode _) eqn:D; [discriminate|]. injection H as <- _. eauto.
    + destruct (send_at_loop_response _ _ _ _ _ _ _ E) as (m & _ & _ & _ & [C|C]);
        discriminate.
    + discriminate.
  - left. injection H as <- _. auto.
  - right. unfold bind, ticks_ms in H.
    destruct (send_at_loop _ _ _ _ _) as [[resp|e'|] w1] eqn:E; cbn [ticks] in E.
    + destruct (send_at_loop_response _ _ _ _ _ _ _ E) as (m & _ & _ & _ & [C|C]);
        [discriminate|]. injection C as ->. cbn [rx app] in H.
      destruct (decode _) eqn:D; [discriminate|]. injection H as <- _. eauto.
    + destruct (send_at_loop_response _ _ _ _ _ _ _ E) as (m & _ & _ & _ & [C|C]);
        discriminate.
    + discriminate.
Qed.

(** [m], run on a calm world, returns a value satisfying [P] and leaves
    a calm world, having shown the events [E]. *)
Definition calmly {A} (E : list Event) (P : A -> Prop) (m : M A) : Prop :=
  forall w, calm w ->
    exists a w' new, m w = (Ret a, w') /\ P a /\ calm w' /\
      trace w' = new ++ trace w /\ filter shown new = E.

Lemma calmly_ret {A} (a : A) (P : A -> Prop) : P a -> calmly [] P (ret a).
Proof. intros Pa w Hw. exists a, w, []. auto. Qed.

Lemma calmly_bind {A B} E1 E2 (P : A -> Prop) (R : B -> Prop) (m : M A)
    (k : A -> M B) :
  calmly E1 P m -> (forall a, P a -> calmly E2 R (k a)) ->
  calmly (E2 ++ E1) R (bind m k).
Proof.
  intros Hm Hk w Hw.
  destruct (Hm w Hw) as (a & w1 & n1 & H1 & Pa & Hw1 & T1 & F1).
  destruct (Hk a Pa w1 Hw1) as (b & w2 & n2 & H2 & Rb & Hw2 & T2 & F2).
  exists b, w2, (n2 ++ n1). unfold bind. rewrite H1.
  repeat split; auto.
  - apply Hw2.
  - apply Hw2.
  - now rewrite T2, T1, app_assoc.
  - now rewrite filter_app, F1, F2.
Qed.

Lemma calmly_try {A} E (P : A -> Prop) (m : M A) (h : Exn -> M A) :
  calmly E P m -> calmly E P (try_except m h).
Proof.
  intros Hm w Hw.
  destruct (Hm w Hw) as (a & w1 & n1 & H1 & Pa & Hw1 & T1 & F1).
  exists a, w1, n1. unfold try_except. rewrite H1. auto.
Qed.

Lemma calmly_log e : shown e = true -> calmly [e] (fun _ => True) (log e).
Proof.
  intros He w Hw. eexists tt, _, [e]. split; [reflexivity|].
  cbn. rewrite He. repeat split; apply Hw.
Qed.

Lemma calmly_sleep ms : calmly [] (fun _ => True) (sleep_ms ms).
Proof.
  intros w Hw. eexists tt, _, []. split; [reflexivity|].
  cbn. repeat split; apply Hw.
Qed.

Lemma calmly_write data : calmly [] (fun _ => True) (uart_write data).
Proof.
  intros [t rxs ws tr] [Hwr Hdec]. cbn in Hwr, Hdec. unfold uart_write. cbn.
  destruct ws as [|[|] rest].
  - eexists tt, _, [_]. split; [reflexivity|]. cbn. repeat split; auto.
  - inversion Hwr; discriminate.
  - eexists tt, _, [_]. split; [reflexivity|]. cbn.
    inversion Hwr; subst. repeat split; auto.
Qed.

Lemma calmly_send_at cmd timeout :
  calmly [] (fun _ => True) (send_at decode cmd timeout).
Proof.
  intros w Hw.
  destruct (calmly_write (list_byte_of_string (cmd ++ String "013" (String "010" EmptyString)))
              w Hw)
    as ([] & w1 & n1 & H1 & _ & Hw1 & T1 & F1).
  unfold send_at. unfold bind at 1. rewrite H1.
  unfold bind, ticks_ms.
  destruct (send_at_loop _ _ _ _ _) as [[resp|e|] w2] eqn:E.
  - destruct (send_at_loop_response _ _ _ _ _ _ _ E) as (m & R1 & R2 & R3 & [C|C]);
      [discriminate|]. injection C as ->. cbn [app].
    destruct Hw1 as [Hwr Hdec].
    destruct (decode _) as [s|] eqn:D.
    + exists s, w2, n1. unfold ret. repeat split; auto.
      * now rewrite R2.
      * intros i n. rewrite R1, skipn_skipn. apply Hdec.
      * now rewrite R3.
    + exfalso. apply (Hdec 0%nat m). exact D.
  - destruct (send_at_loop_response _ _ _ _ _ _ _ E) as (m & _ & _ & _ & [C|C]);
      discriminate.
  - exfalso. refine (total_send_at decode cmd timeout w Fuel w2 _ eq_refl).
    unfold send_at. unfold bind at 1. rewrite H1. unfold bind, ticks_ms.
    now rewrite E.
Qed.
End CalmRuns.

Lemma calmly_shows {A} decode E E' (P : A -> Prop) (m : Modem.M A) :
  calmly decode E P m -> E = E' -> calmly decode E' P m.
Proof. intros H <-. exact H. Qed.

(** Straight-line code on a calm world. *)
Ltac calm_code :=
  repeat match goal with
  | |- calmly _ _ _ (Modem.bind _ _) => eapply calmly_bind; [|intros ? _]
  | |- calmly _ _ _ (Modem.try_except _ _) => eapply calmly_try
  | |- calmly _ _ _ (Modem.send_at _ _ _) => eapply calmly_send_at
  | |- calmly _ _ _ (Modem.uart_write _) => eapply calmly_write
  | |- calmly _ _ _ (Modem.log _) => eapply calmly_log; reflexivity
  | |- calmly _ _ _ (Modem.sleep_ms _) => eapply calmly_sleep
  | |- calmly _ _ _ (Modem.ret _) => eapply calmly_ret; first [exact I | reflexivity]
  end.

Section NoRaise.
Import Py Modem.
Local Open Scope py_scope.

Variable decode : bytes -> option string.
Variable DEVICE_ID : string.

Lemma calmly_run {A} E (P : A -> Prop) (m : M A) w :
  calmly decode E P m -> calm decode w ->
  exists a w', m w = (Ret a, w') /\ P a /\ filter shown (since w w') = E.
Proof.
  intros Hm Hw. destruct (Hm w Hw) as (a & w' & new & H & Pa & _ & T & F).
  exists a, w'. rewrite (since_app _ _ _ T). auto.
Qed.

Lemma nb_connect_calm fuel :
  calmly decode [EvPrint MsgConnected; EvCall CapConnect] (fun _ => True)
    (Sim7080g.mqtt_connect decode DEVICE_ID (S fuel)).
Proof.
  unfold Sim7080g.mqtt_connect. cbn [Sim7080g.mqtt_connect_loop].
  unfold Sim7080g.mqtt_connect_try, Sim7080g.send_at, enter, print.
  eapply calmly_shows; [calm_code | reflexivity].
Qed.

Lemma gprs_connect_calm fuel :
  calmly decode [EvPrint MsgConnected; EvCall CapConnect] (fun _ => True)
    (Sim868.mqtt_connect decode DEVICE_ID (S fuel)).
Proof.
  unfold Sim868.mqtt_connect. cbn [Sim868.mqtt_connect_loop].
  unfold Sim868.mqtt_connect_try, Sim868.send_at, enter, print.
  eapply calmly_shows; [calm_code | reflexivity].
Qed.

Lemma nb_publish_calm fuel topic data :
  calmly decode [EvPrint (MsgPublished data); EvCall CapPublish]
    (fun b => b = true)
    (Sim7080g.mqtt_publish decode DEVICE_ID fuel topic data).
Proof.
  unfold Sim7080g.mqtt_publish. cbn [Sim7080g.mqtt_publish_loop].
  unfold Sim7080g.mqtt_publish_try, Sim7080g.send_at, enter, print.
  eapply calmly_shows; [calm_code | reflexivity].
Qed.

Lemma gprs_publish_calm fuel topic data :
  calmly decode [EvPrint (MsgPublished data); EvCall CapPublish]
    (fun b => b = true)
    (Sim868.mqtt_publish decode DEVICE_ID fuel topic data).
Proof.
  unfold Sim868.mqtt_publish. cbn [Sim868.mqtt_publish_loop].
  unfold Sim868.mqtt_publish_try, Sim868.send_at, enter, print.
  eapply calmly_shows; [calm_code | reflexivity].
Qed.

(** C10. [send_at] only raises when the UART write or [decode] raised:
    an ERROR answer or a timeout comes back as the returned string.
    Hence on a world where no write raises and every response decodes,
    whatever the modem answers: [send_at] returns; [mqtt_connect] returns
    after one turn of its loop, without printing a failure; [mqtt_publish]
    returns [True] at its first attempt, without a reconnection. *)
Theorem C10_transport_failures_never_raise (w : World) :
  calm decode w ->
  (forall cmd timeout w0 r w',
     send_at decode cmd timeout w0 = (r, w') ->
     r <> Fuel /\
     forall e, r = Raise e ->
       (e = OSError /\ hd_error (wr w0) = Some true) \/
       (e = UnicodeError /\
        exists m, decode (List.concat (firstn m (rx w0))) = None)) /\
  (forall cmd timeout,
     exists s w', send_at decode cmd timeout w = (Ret s, w') /\
                  filter shown (since w w') = []) /\
  (forall fuel,
     exists w', Sim7080g.mqtt_connect decode DEVICE_ID (S fuel) w = (Ret tt, w') /\
                filter shown (since w w') = [EvPrint MsgConnected; EvCall CapConnect]) /\
  (forall fuel,
     exists w', Sim868.mqtt_connect decode DEVICE_ID (S fuel) w = (Ret tt, w') /\
                filter shown (since w w') = [EvPrint MsgConnected; EvCall CapConnect]) /\
  (forall fuel topic data,
     exists w',
       Sim7080g.mqtt_publish decode DEVICE_ID fuel topic data w = (Ret true, w') /\
       filter shown (since w w') = [EvPrint (MsgPublished data); EvCall CapPublish]) /\
  (forall fuel topic data,
     exists w',
       Sim868.mqtt_publish decode DEVICE_ID fuel topic data w = (Ret true, w') /\
       filter shown (since w w') = [EvPrint (MsgPublished data); EvCall CapPublish]).
Proof.
  intros Hw. split; [intros; eapply send_at_raises_only; eauto|].
  split.
  { intros cmd timeout.
    destruct (calmly_run _ _ _ w (calmly_send_at decode cmd timeout) Hw)
      as (s & w' & H & _ & F). eauto. }
  split.
  { intros fuel.
    destruct (calmly_run _ _ _ w (nb_connect_calm fuel) Hw) as ([] & w' & H & _ & F).
    eauto. }
  split.
  { intros fuel.
    destruct (calmly_run _ _ _ w (gprs_connect_calm fuel) Hw) as ([] & w' & H & _ & F).
    eauto. }
  split.
  - intros fuel topic data.
    destruct (calmly_run _ _ _ w (nb_publish_calm fuel topic data) Hw)
      as (b & w' & H & -> & F). eauto.
  - intros fuel topic data.
    destruct (calmly_run _ _ _ w (gprs_publish_calm fuel topic data) Hw)
      as (b & w' & H & -> & F). eauto.
Qed.
End NoRaise.

Section RefRuntimeFacts.
Import Py Modem.

Definition ascii_chunk (c : bytes) : Prop := forallb RefRuntime.is_ascii c = true.

Lemma ascii_concat l : Forall ascii_chunk l -> ascii_chunk (List.concat l).
Proof.
  induction 1 as [|c l Hc _ IH]; [reflexivity|].
  unfold ascii_chunk in *. cbn. now rewrite forallb_app, Hc, IH.
Qed.

Lemma Forall_skipn_firstn {A} (P : A -> Prop) l : forall i n,
  Forall P l -> Forall P (firstn n (skipn i l)).
Proof.
  intros i n H.
  assert (Hs : Forall P (skipn i l)).
  { clear n. revert i.
    induction H as [|x l Hx Hl IH]; intros [|i]; cbn; auto. }
  clear H. revert n.
  induction Hs as [|x l' Hx _ IH]; intros [|n]; cbn; auto.
Qed.

(** A script without raising writes and with ASCII answers is calm for
    the reference [decode]. *)
Lemma calm_ascii (w : World) :
  Forall (fun raises => raises = false) (wr w) ->
  Forall ascii_chunk (rx w) ->
  calm RefRuntime.decode w.
Proof.
  intros Hwr Hrx. split; [exact Hwr|]. intros i n.
  unfold RefRuntime.decode.
  pose proof (ascii_concat _ (Forall_skipn_firstn _ _ i n Hrx)) as H.
  unfold ascii_chunk in H. now rewrite H.
Qed.
End RefRuntimeFacts.

(** The modem answers ERROR to the publish command: [mqtt_publish] still
    returns [True] at once. *)
Lemma C10_transport_failures_never_raise_witness :
  let w := RefRuntime.world0 [RefRuntime.chunk "ERROR"] [] in
  exists w',
    Sim7080g.mqtt_publish RefRuntime.decode "dev" 0 "temperature/dev"
      (Codec.encode_sensor 21.5 40 30) w = (Modem.Ret true, w') /\
    filter shown (since w w') =
      [Modem.EvPrint (Modem.MsgPublished (Codec.encode_sensor 21.5 40 30));
       Modem.EvCall Modem.CapPublish].
Proof.
  cbv zeta.
  refine (proj1 (proj2 (proj2 (proj2 (proj2
            (C10_transport_failures_never_raise RefRuntime.decode "dev"
               (RefRuntime.world0 [RefRuntime.chunk "ERROR"] []) _)))))
            0%nat "temperature/dev"%string (Codec.encode_sensor 21.5 40 30)).
  apply calm_ascii; cbn.
  - constructor.
  - repeat constructor.
Defined.

(** ** Sensor node: events of the connect and publish loops *)

(** Code made of the monad's operations, for an event predicate that holds
    of the events the code logs, by computation or by assumption. *)
Ltac emits_side := cbv beta; first [exact eq_refl | solve [auto]].

Ltac emits_code :=
  repeat match goal with
  | |- emits _ (Modem.bind _ _) => apply emits_bind; [|intros ?]
  | |- emits _ (Modem.try_except _ _) => apply emits_try; [|intros ?]
  | |- emits _ (Modem.send_at _ _ _) => apply emits_send_at; intros; emits_side
  | |- emits _ (Modem.uart_write _) => apply emits_write; intros; emits_side
  | |- emits _ (Modem.log _) => apply emits_log; emits_side
  | |- emits _ (Modem.sleep_ms _) => apply emits_sleep
  | |- emits _ (Modem.ret _) => apply emits_ret
  | |- emits _ Modem.out_of_fuel => apply emits_out_of_fuel
  | |- emits _ (if ?b then _ else _) => destruct b
  | |- emits _ (match ?x with Some _ => _ | None => _ end) => destruct x
  end.

Section ClassifiedEvents.
Import Py Modem.
Local Open Scope py_scope.

Variable decode : bytes -> option string.
Variable DEVICE_ID : string.

(** A class of events, given by [f], that contains no UART write, no
    print and no entry into [mqtt_connect]. *)
Variable f : Event -> bool.
Hypothesis f_write : forall data ok, f (EvWrite data ok) = false.
Hypothesis f_print : forall m, f (EvPrint m) = false.
Hypothesis f_connect : f (EvCall CapConnect) = false.

Lemma nb_connect_emits fuel :
  emits (fun e => f e = false) (Sim7080g.mqtt_connect decode DEVICE_ID fuel).
Proof.
  unfold Sim7080g.mqtt_connect, enter.
  apply emits_bind; [emits_code|]. intros _.
  induction fuel as [|fuel IH]; cbn [Sim7080g.mqtt_connect_loop].
  - apply emits_out_of_fuel.
  - apply emits_try.
    + unfold Sim7080g.mqtt_connect_try, Sim7080g.send_at, print. emits_code.
    + intros _. unfold print.
      apply emits_bind; [emits_code|]. intros _.
      apply emits_bind; [emits_code|]. intros _. exact IH.
Qed.

Lemma nb_publish_loop_emits fuel n topic data :
  emits (fun e => f e = false)
    (Sim7080g.mqtt_publish_loop decode DEVICE_ID fuel n topic data).
Proof.
  induction n as [|n IH]; cbn [Sim7080g.mqtt_publish_loop]; unfold print.
  - emits_code.
  - apply emits_try.
    + unfold Sim7080g.mqtt_publish_try, Sim7080g.send_at, print. emits_code.
    + intros _.
      apply emits_bind; [emits_code|]. intros _.
      apply emits_bind; [apply nb_connect_emits|]. intros _.
      apply emits_bind; [emits_code|]. intros _. exact IH.
Qed.

Lemma gprs_connect_emits fuel :
  emits (fun e => f e = false) (Sim868.mqtt_connect decode DEVICE_ID fuel).
Proof.
  unfold Sim868.mqtt_connect, enter.
  apply emits_bind; [emits_code|]. intros _.
  induction fuel as [|fuel IH]; cbn [Sim868.mqtt_connect_loop].
  - apply emits_out_of_fuel.
  - apply emits_try.
    + unfold Sim868.mqtt_connect_try, Sim868.send_at, print. emits_code.
    + intros _. unfold print.
      apply emits_bind; [emits_code|]. intros _.
      apply emits_bind; [emits_code|]. intros _. exact IH.
Qed.

Lemma gprs_publish_loop_emits fuel n topic data :
  emits (fun e => f e = false)
    (Sim868.mqtt_publish_loop decode DEVICE_ID fuel n topic data).
Proof.
  induction n as [|n IH]; cbn [Sim868.mqtt_publish_loop]; unfold print.
  - emits_code.
  - apply emits_try.
    + unfold Sim868.mqtt_publish_try, Sim868.send_at, print. emits_code.
    + intros _.
      apply emits_bind; [emits_code|]. intros _.
      apply emits_bind; [apply gprs_connect_emits|]. intros _.
      apply emits_bind; [emits_code|]. intros _. exact IH.
Qed.
End ClassifiedEvents.

(** ** Sensor node: change suppression in the control loop *)

Section Suppression.
Import Py Modem.
Local Open Scope py_scope.

Variable decode : bytes -> option string.
Variable int : string -> option Z.
Variable DEVICE_ID : string.

(** An event that is not an entry into [mqtt_publish]. *)
Definition no_publish (e : Event) : Prop := is_publish_call e = false.

(** The number of publishes attempted in a stretch of the trace. *)
Definition publishes (l : list Event) : nat :=
  List.length (filter is_publish_call l).

Lemma publishes_none l : Forall no_publish l -> publishes l = 0%nat.
Proof.
  unfold publishes. induction 1 as [|e l He _ IH]; [reflexivity|].
  cbn. now rewrite He.
Qed.

Lemma publishes_app l1 l2 : publishes (l1 ++ l2) = (publishes l1 + publishes l2)%nat.
Proof. unfold publishes. now rewrite filter_app, length_app. Qed.

(** *** NB-IoT *)

Lemma nb_check_no_publish : emits no_publish (Sim7080g.nb_iot_check_signal decode int).
Proof.
  unfold Sim7080g.nb_iot_check_signal, Sim7080g.send_at, enter. emits_code.
Qed.

Lemma nb_init_no_publish : emits no_publish (Sim7080g.nb_iot_init decode).
Proof.
  unfold Sim7080g.nb_iot_init, Sim7080g.send_at, enter, print. emits_code.
Qed.

Lemma nb_wait_no_publish fuel :
  emits no_publish (Sim7080g.nb_iot_wait_network decode int fuel).
Proof.
  unfold Sim7080g.nb_iot_wait_network, enter.
  apply emits_bind; [emits_code|]. intros _.
  induction fuel as [|fuel IH]; cbn [Sim7080g.nb_iot_wait_network_loop].
  - apply emits_out_of_fuel.
  - apply emits_bind; [apply nb_check_no_publish|]. intros rssi. unfold print.
    destruct (_ && _); [emits_code|].
    apply emits_bind; [emits_code|]. intros _.
    apply emits_bind; [emits_code|]. intros _. exact IH.
Qed.

Lemma nb_connect_no_publish fuel :
  emits no_publish (Sim7080g.mqtt_connect decode DEVICE_ID fuel).
Proof. now apply nb_connect_emits. Qed.

Lemma nb_publish_loop_no_publish fuel n topic data :
  emits no_publish (Sim7080g.mqtt_publish_loop decode DEVICE_ID fuel n topic data).
Proof. now apply nb_publish_loop_emits. Qed.

(** *** 2G/GPRS *)

Lemma gprs_connect_no_publish fuel :
  emits no_publish (Sim868.mqtt_connect decode DEVICE_ID fuel).
Proof. now apply gprs_connect_emits. Qed.


(** A call of [mqtt_publish] is one attempt to publish. *)
Lemma nb_publish_once fuel topic data w r w' :
  Sim7080g.mqtt_publish decode DEVICE_ID fuel topic data w = (r, w') ->
  exists new, trace w' = new ++ trace w /\ publishes new = 1%nat.
Proof.
  unfold Sim7080g.mqtt_publish, bind, enter, log. intros H.
  destruct (nb_publish_loop_no_publish _ _ _ _ _ _ _ H) as (new & E & F).
  cbn [trace] in E. exists (new ++ [EvCall CapPublish]).
  split; [now rewrite E, <- app_assoc|].
  now rewrite publishes_app, (publishes_none _ F).
Qed.


(** The rebuild of the session that the NB-IoT cycle starts with. *)
Lemma nb_rebuild_no_publish fuel (rssi : Z) :
  emits no_publish
    (if (rssi =? 0) || (rssi =? 99) then
       print MsgNetworkLost ;;
       Sim7080g.nb_iot_init decode ;;
       Sim7080g.nb_iot_wait_network decode int fuel ;;
       Sim7080g.mqtt_connect decode DEVICE_ID fuel
     else ret tt).
Proof.
  destruct (_ || _); [|apply emits_ret]. unfold print.
  apply emits_bind; [emits_code|]. intros _.
  apply emits_bind; [apply nb_init_no_publish|]. intros _.
  apply emits_bind; [apply nb_wait_no_publish|]. intros _.
  apply nb_connect_no_publish.
Qed.

Lemma bind_ret_inv {A B} (m : M A) (k : A -> M B) w b w' :
  bind m k w = (Ret b, w') ->
  exists a w1, m w = (Ret a, w1) /\ k a w1 = (Ret b, w').
Proof.
  intros H.
  destruct (bind_inv _ _ _ _ _ H) as [?|[(e & _ & ?)|[_ ?]]];
    [assumption | discriminate | discriminate].
Qed.




End Suppression.


(** ** Sensor node: waiting for the network *)

Section WaitNetwork.
Import Py Modem.
Local Open Scope py_scope.

Variable decode : bytes -> option string.
Variable int : string -> option Z.

Local Notation "'check'" := (Sim7080g.nb_iot_check_signal decode int).
Local Notation "'wait_loop'" := (Sim7080g.nb_iot_wait_network_loop decode int).

(** The world after "Waiting for NB-IoT network..." and [time.sleep(5)]. *)
Definition waiting (w : World) : World :=
  mkWorld (ticks w + 5000) (rx w) (wr w) (EvPrint MsgWaitingNetwork :: trace w).

(** The world after "Network OK, RSSI: ...". *)
Definition announced (rssi : Z) (w : World) : World :=
  mkWorld (ticks w) (rx w) (wr w) (EvPrint (MsgNetworkOK rssi) :: trace w).

Definition entered (c : Capability) (w : World) : World :=
  mkWorld (ticks w) (rx w) (wr w) (EvCall c :: trace w).

(** [polled n w w']: starting in [w], [n] successive signal checks
    returned a reading outside ]0, 99[, each followed by the fixed delay,
    and the world is now [w']. *)
Inductive polled : nat -> World -> World -> Prop :=
| polled_O w : polled 0 w w
| polled_S n w rssi w1 w' :
    check w = (Ret rssi, w1) ->
    (0 <? rssi) && (rssi <? 99) = false ->
    polled n (waiting w1) w' ->
    polled (S n) w w'.

Lemma wait_loop_invalid fuel w rssi w1 :
  check w = (Ret rssi, w1) ->
  (0 <? rssi) && (rssi <? 99) = false ->
  wait_loop (S fuel) w = wait_loop fuel (waiting w1).
Proof.
  intros Hc Hv. cbn [Sim7080g.nb_iot_wait_network_loop].
  unfold bind at 1. rewrite Hc, Hv. reflexivity.
Qed.

Lemma wait_loop_valid fuel w rssi w1 :
  check w = (Ret rssi, w1) ->
  (0 <? rssi) && (rssi <? 99) = true ->
  wait_loop (S fuel) w = (Ret tt, announced rssi w1).
Proof.
  intros Hc Hv. cbn [Sim7080g.nb_iot_wait_network_loop].
  unfold bind at 1. rewrite Hc, Hv. reflexivity.
Qed.

(** While the readings are invalid the loop goes on. *)
Lemma wait_loop_polled n w w' :
  polled n w w' -> forall fuel, wait_loop (n + fuel) w = wait_loop fuel w'.
Proof.
  induction 1 as [w|n w rssi w1 w' Hc Hv _ IH]; intros fuel; [reflexivity|].
  cbn [Nat.add]. rewrite (wait_loop_invalid _ _ _ _ Hc Hv). apply IH.
Qed.

(** The loop returns only on a valid reading. *)
Lemma wait_loop_returns fuel : forall w w',
  wait_loop fuel w = (Ret tt, w') ->
  exists n w1 rssi w2,
    (n < fuel)%nat /\ polled n w w1 /\ check w1 = (Ret rssi, w2) /\
    0 < rssi < 99 /\ w' = announced rssi w2.
Proof.
  induction fuel as [|fuel IH]; intros w w' H; [discriminate|].
  destruct (check w) as [[rssi|e|] w1] eqn:Hc.
  - destruct ((0 <? rssi) && (rssi <? 99)) eqn:Hv.
    + rewrite (wait_loop_valid _ _ _ _ Hc Hv) in H. injection H as <-.
      apply andb_prop in Hv. destruct Hv as [Hv1 Hv2].
      apply Z.ltb_lt in Hv1, Hv2.
      exists 0%nat, w, rssi, w1.
      split; [lia|]. split; [constructor|]. split; [exact Hc|].
      split; [lia | reflexivity].
    + rewrite (wait_loop_invalid _ _ _ _ Hc Hv) in H.
      destruct (IH _ _ H) as (n & wa & r & wb & Hn & Hp & Hc' & Hr & ->).
      exists (S n), wa, r, wb.
      split; [lia|]. split; [econstructor; eauto|]. split; [exact Hc'|].
      split; [exact Hr | reflexivity].
  - cbn [Sim7080g.nb_iot_wait_network_loop] in H. unfold bind at 1 in H.
    rewrite Hc in H. discriminate.
  - cbn [Sim7080g.nb_iot_wait_network_loop] in H. unfold bind at 1 in H.
    rewrite Hc in H. discriminate.
Qed.

(** When the response does not parse, the reading is 0. *)
Lemma check_parse_failure w resp w1 :
  Sim7080g.send_at decode "AT+CSQ" 2000 (entered CapCheckSignal w) = (Ret resp, w1) ->
  Sim7080g.parse_rssi int resp = None ->
  check w = (Ret 0, w1).
Proof.
  intros Hs Hp. unfold Sim7080g.nb_iot_check_signal.
  unfold bind at 1. cbn [enter log]. fold (entered CapCheckSignal w).
  unfold bind. rewrite Hs, Hp. reflexivity.
Qed.

(** C7. [nb_iot_wait_network] returns only after [nb_iot_check_signal]
    gave a reading strictly between 0 and 99, having printed it; as long
    as the readings are outside that interval (the sentinels 0 and 99 in
    particular, and 0 is what a response that does not parse yields) it
    prints, sleeps five seconds and polls again, for any number of
    rounds; at the first valid reading it returns. *)
Theorem C7_wait_network_polls_until_valid (fuel : nat) (w : World) :
  (forall w',
     Sim7080g.nb_iot_wait_network decode int fuel w = (Ret tt, w') ->
     exists n w1 rssi w2,
       (n < fuel)%nat /\ polled n (entered CapWaitNetwork w) w1 /\
       check w1 = (Ret rssi, w2) /\ 0 < rssi < 99 /\ w' = announced rssi w2) /\
  (forall n w1,
     polled n (entered CapWaitNetwork w) w1 ->
     Sim7080g.nb_iot_wait_network decode int n w = (Fuel, w1)) /\
  (forall n w1 rssi w2,
     polled n (entered CapWaitNetwork w) w1 ->
     check w1 = (Ret rssi, w2) -> 0 < rssi < 99 -> (n < fuel)%nat ->
     Sim7080g.nb_iot_wait_network decode int fuel w = (Ret tt, announced rssi w2)) /\
  (forall wa rssi wb n w',
     check wa = (Ret rssi, wb) -> rssi = 0 \/ rssi = 99 ->
     polled n (waiting wb) w' -> polled (S n) wa w') /\
  (forall wa resp wb,
     Sim7080g.send_at decode "AT+CSQ" 2000 (entered CapCheckSignal wa) = (Ret resp, wb) ->
     Sim7080g.parse_rssi int resp = None ->
     check wa = (Ret 0, wb)) /\
  (forall w1, ticks (waiting w1) = ticks w1 + 5000).
Proof.
  assert (Hw : forall k, Sim7080g.nb_iot_wait_network decode int k w =
                         wait_loop k (entered CapWaitNetwork w)) by reflexivity.
  split; [|split; [|split; [|split; [|split]]]].
  - intros w' H. rewrite Hw in H. now apply wait_loop_returns.
  - intros n w1 Hp. rewrite Hw.
    rewrite <- (Nat.add_0_r n), (wait_loop_polled _ _ _ Hp 0%nat). reflexivity.
  - intros n w1 rssi w2 Hp Hc Hr Hn. rewrite Hw.
    replace fuel with (n + S (fuel - S n))%nat by lia.
    rewrite (wait_loop_polled _ _ _ Hp). apply wait_loop_valid; [exact Hc|].
    apply andb_true_intro. split; lia.
  - intros wa rssi wb n w' Hc Hs Hp. econstructor; eauto.
    destruct Hs as [-> | ->]; reflexivity.
  - intros wa resp wb Hs Hp. exact (check_parse_failure wa resp wb Hs Hp).
  - reflexivity.
Qed.
End WaitNetwork.

(** The modem reports 0, then 99, then an answer without a reading, then
    15: the node waits through the first three and returns on 15. *)
Lemma C7_wait_network_polls_until_valid_witness :
  let w := RefRuntime.world0
             [RefRuntime.chunk "+CSQ: 0,0 OK"; RefRuntime.chunk "+CSQ: 99,99 OK";
              RefRuntime.chunk "ERROR"; RefRuntime.chunk "+CSQ: 15,99 OK"] [] in
  exists w',
    Sim7080g.nb_iot_wait_network RefRuntime.decode RefRuntime.int 10 w =
      (Modem.Ret tt, w') /\
    Modem.ticks w' = 15000 /\
    exists n w1 rssi w2,
      polled RefRuntime.decode RefRuntime.int n (entered Modem.CapWaitNetwork w) w1 /\
      Sim7080g.nb_iot_check_signal RefRuntime.decode RefRuntime.int w1 = (Modem.Ret rssi, w2) /\
      0 < rssi < 99 /\ w' = announced rssi w2.
Proof.
  cbv zeta.
  destruct (Sim7080g.nb_iot_wait_network RefRuntime.decode RefRuntime.int 10
              (RefRuntime.world0
                 [RefRuntime.chunk "+CSQ: 0,0 OK"; RefRuntime.chunk "+CSQ: 99,99 OK";
                  RefRuntime.chunk "ERROR"; RefRuntime.chunk "+CSQ: 15,99 OK"] []))
    as [r w'] eqn:E.
  pose proof (f_equal fst E) as R. cbn [fst] in R. vm_compute in R.
  pose proof (f_equal snd E) as W. cbn [snd] in W.
  subst r. exists w'. split; [reflexivity|]. split.
  { rewrite <- W. vm_compute. reflexivity. }
  destruct (proj1 (C7_wait_network_polls_until_valid RefRuntime.decode RefRuntime.int
                     10 _) w' E)
    as (n & w1 & rssi & w2 & _ & Hp & Hc & Hr & Hw).
  exists n, w1, rssi, w2. auto.
Defined.

(** ** The two variants compared *)

Section Variants.
Import Py Modem.
Local Open Scope py_scope.

Variable decode : bytes -> option string.
Variable int : string -> option Z.
Variable DEVICE_ID : string.

(** An event that is not an entry into init, checkSignalQuality or
    waitForNetwork. *)
Definition not_session (e : Event) : Prop := is_session_call e = false.

Lemma session_calls_none l : Forall not_session l -> filter is_session_call l = [].
Proof.
  induction 1 as [|e l He _ IH]; [reflexivity|]. cbn. now rewrite He.
Qed.

Lemma nb_publish_not_session fuel topic data :
  emits not_session (Sim7080g.mqtt_publish decode DEVICE_ID fuel topic data).
Proof.
  unfold Sim7080g.mqtt_publish, enter.
  apply emits_bind; [emits_code|]. intros _.
  now apply nb_publish_loop_emits.
Qed.

Lemma gprs_publish_not_session fuel topic data :
  emits not_session (Sim868.mqtt_publish decode DEVICE_ID fuel topic data).
Proof.
  unfold Sim868.mqtt_publish, enter.
  apply emits_bind; [emits_code|]. intros _.
  now apply gprs_publish_loop_emits.
Qed.

Lemma gprs_cycle_not_session fuel r st :
  emits not_session (Sim868.main_cycle decode DEVICE_ID fuel r st).
Proof.
  unfold Sim868.main_cycle.
  destruct (r_temp r), (r_hum r), (r_cpu r); try solve [emits_code].
  destruct (_ || _); [|emits_code].
  apply emits_bind; [apply gprs_publish_not_session | intros _; emits_code].
Qed.

Lemma gprs_loop_not_session fuel readings : forall st,
  emits not_session (Sim868.main_loop decode DEVICE_ID fuel readings st).
Proof.
  induction readings as [|r readings IH]; intros st; cbn [Sim868.main_loop].
  - apply emits_ret.
  - apply emits_bind; [apply gprs_cycle_not_session | intros st'; apply IH].
Qed.

(** The GPRS program enters init once, at start, and never queries the
    signal: whatever happens, over any number of cycles. *)
Lemma gprs_main_session_calls fuel readings w r w' :
  Sim868.main decode DEVICE_ID fuel readings w = (r, w') ->
  filter is_session_call (since w w') = [EvCall CapInit].
Proof.
  unfold Sim868.main, Sim868.gprs_init. unfold bind at 1 2. cbn [enter log].
  intros H.
  assert (E : emits not_session
                ((print MsgInitializing ;;
                  Sim868.send_at decode "AT" 3000 ;;
                  Sim868.send_at decode "AT+CFUN=1" 3000 ;;
                  Sim868.send_at decode "AT+CGATT=1" 3000 ;;
                  Sim868.send_at decode
                    ("AT+SAPBR=3,1," ++ dq ++ "CONTYPE" ++ dq ++ "," ++ dq ++ "GPRS" ++ dq)%string 3000 ;;
                  Sim868.send_at decode
                    ("AT+SAPBR=3,1," ++ dq ++ "APN" ++ dq ++ "," ++ dq ++ "internet" ++ dq)%string 3000 ;;
                  Sim868.send_at decode "AT+SAPBR=1,1" 3000 ;;
                  Sim868.send_at decode "AT+SAPBR=2,1" 3000 ;;
                  print MsgReady) ;;
                 Sim868.mqtt_connect decode DEVICE_ID fuel ;;
                 Sim868.main_loop decode DEVICE_ID fuel readings Sim868.initial)).
  { apply emits_bind.
    - unfold Sim868.send_at, print. emits_code.
    - intros _. apply emits_bind.
      + now apply gprs_connect_emits.
      + intros _. apply gprs_loop_not_session. }
  destruct (E _ _ _ H) as (new & T & F). cbn [trace] in T.
  rewrite (since_app w w' (new ++ [EvCall CapInit])).
  - now rewrite filter_app, (session_calls_none _ F).
  - now rewrite T, <- app_assoc.
Qed.

(** The part of the NB-IoT cycle after the signal check. *)
Definition nb_cycle_rest (fuel : nat) (r : Reading) (st : Sim7080g.Last)
    : M Sim7080g.Last :=
  match r_temp r, r_hum r, r_cpu r with
  | Some temp, Some hum, Some cpu_temp =>
      if differs temp (Sim7080g.last_temp st) || differs hum (Sim7080g.last_hum st) then
        Sim7080g.mqtt_publish decode DEVICE_ID fuel (Sim7080g.MQTT_TOPIC DEVICE_ID)
          (Codec.encode_sensor temp hum cpu_temp) ;;
        sleep_ms (CHECK_INTERVAL * 1000) ;;
        ret (Sim7080g.mkLast (Some temp) (Some hum) (Some cpu_temp))
      else
        sleep_ms (CHECK_INTERVAL * 1000) ;;
        ret st
  | _, _, _ =>
      sleep_ms (CHECK_INTERVAL * 1000) ;;
      ret st
  end.

Lemma nb_cycle_rest_not_session fuel r st :
  emits not_session (nb_cycle_rest fuel r st).
Proof.
  unfold nb_cycle_rest.
  destruct (r_temp r), (r_hum r), (r_cpu r); try solve [emits_code].
  destruct (_ || _); [|emits_code].
  apply emits_bind; [apply nb_publish_not_session | intros _; emits_code].
Qed.

(** C5, as amended. The two variants have the same publish retry policy
    and the same connect retry loop, each around its own command
    sequence. Their top-level loops differ. The NB-IoT cycle starts with
    a signal check; on 0 or 99 it prints, runs [nb_iot_init],
    [nb_iot_wait_network] and [mqtt_connect], then goes on with the
    reading; on another value it goes on at once. The GPRS program
    enters its init once, at start, and never checks the signal or waits
    for the network, in no cycle. *)
Theorem C5_same_retry_policy_signal_check_in_nb_iot_only (fuel : nat) :
  (forall topic data,
     Sim7080g.mqtt_publish decode DEVICE_ID fuel topic data =
       spec_publish (Sim7080g.mqtt_publish_try decode topic data)
         (Sim7080g.mqtt_connect decode DEVICE_ID fuel) /\
     Sim868.mqtt_publish decode DEVICE_ID fuel topic data =
       spec_publish (Sim868.mqtt_publish_try decode topic data)
         (Sim868.mqtt_connect decode DEVICE_ID fuel)) /\
  (Sim7080g.mqtt_connect decode DEVICE_ID fuel =
     spec_connect (Sim7080g.mqtt_connect_try decode DEVICE_ID) fuel /\
   Sim868.mqtt_connect decode DEVICE_ID fuel =
     spec_connect (Sim868.mqtt_connect_try decode DEVICE_ID) fuel) /\
  (forall r st,
     exists rest : M Sim7080g.Last,
       emits not_session rest /\
       forall w rssi w1,
         Sim7080g.nb_iot_check_signal decode int w = (Ret rssi, w1) ->
         (rssi = 0 \/ rssi = 99 ->
          Sim7080g.main_cycle decode int DEVICE_ID fuel r st w =
            bind (print MsgNetworkLost ;;
                  Sim7080g.nb_iot_init decode ;;
                  Sim7080g.nb_iot_wait_network decode int fuel ;;
                  Sim7080g.mqtt_connect decode DEVICE_ID fuel)
                 (fun _ => rest) w1) /\
         (rssi <> 0 /\ rssi <> 99 ->
          Sim7080g.main_cycle decode int DEVICE_ID fuel r st w = rest w1)) /\
  (forall readings w r w',
     Sim868.main decode DEVICE_ID fuel readings w = (r, w') ->
     filter is_session_call (since w w') = [EvCall CapInit]) /\
  (forall r st w res w',
     Sim868.main_cycle decode DEVICE_ID fuel r st w = (res, w') ->
     filter is_session_call (since w w') = []).
Proof.
  split; [intros; split; [apply nb_publish_refines | apply gprs_publish_refines]|].
  split; [split; [apply nb_connect_refines | apply gprs_connect_refines]|].
  split; [|split].
  - intros r st. exists (nb_cycle_rest fuel r st).
    split; [apply nb_cycle_rest_not_session|].
    intros w rssi w1 Hc. split.
    + intros Hs. unfold Sim7080g.main_cycle. unfold bind at 1. rewrite Hc.
      destruct Hs as [-> | ->]; reflexivity.
    + intros [H0 H99]. unfold Sim7080g.main_cycle. unfold bind at 1. rewrite Hc.
      destruct (Z.eqb_spec rssi 0); [contradiction|].
      destruct (Z.eqb_spec rssi 99); [contradiction|]. reflexivity.
  - intros. eapply gprs_main_session_calls; eauto.
  - intros r st w res w' H.
    destruct (gprs_cycle_not_session fuel r st _ _ _ H) as (new & T & F).
    rewrite (since_app _ _ _ T). now apply session_calls_none.
Qed.
End Variants.

Lemma C5_same_retry_policy_signal_check_in_nb_iot_only_witness :
  let w := RefRuntime.world0 [RefRuntime.chunk "+CSQ: 0,0 OK"] [] in
  let r := Modem.mkReading (Some 21.5%Q) (Some 40%Q) (Some 30%Q) in
  filter is_session_call
    (since w (snd (Sim868.main RefRuntime.decode "dev" 2 [r; r] w))) =
  [Modem.EvCall Modem.CapInit].
Proof.
  cbv zeta.
  eapply (proj1 (proj2 (proj2 (proj2
            (C5_same_retry_policy_signal_check_in_nb_iot_only
               RefRuntime.decode RefRuntime.int "dev" 2))))).
  apply surjective_pairing.
Defined.

(** C5 as stated fails. The modem reports the sentinel 0, then recovers.
    On this one world and reading, the NB-IoT cycle checks the signal and
    rebuilds the session from init before it publishes; the GPRS cycle
    publishes without a signal check and without init. *)
Lemma C5_variants_differ_counterexample :
  let w := RefRuntime.world0
             [RefRuntime.chunk "+CSQ: 0,0 OK"; RefRuntime.chunk "OK";
              RefRuntime.chunk "OK"; RefRuntime.chunk "OK"; RefRuntime.chunk "OK";
              RefRuntime.chunk "+CSQ: 15,99 OK"] [] in
  let r := Modem.mkReading (Some 21.5%Q) (Some 40%Q) (Some 30%Q) in
  let data := Codec.encode_sensor 21.5 40 30 in
  filter policy
    (Modem.trace (snd (Sim7080g.main_cycle RefRuntime.decode RefRuntime.int "dev" 2
                         r Sim7080g.initial w))) =
    [Modem.EvPrint (Modem.MsgPublished data); Modem.EvCall Modem.CapPublish;
     Modem.EvCall Modem.CapConnect; Modem.EvCall Modem.CapCheckSignal;
     Modem.EvCall Modem.CapWaitNetwork; Modem.EvCall Modem.CapInit;
     Modem.EvCall Modem.CapCheckSignal] /\
  filter policy
    (Modem.trace (snd (Sim868.main_cycle RefRuntime.decode "dev" 2
                         r Sim868.initial w))) =
    [Modem.EvPrint (Modem.MsgPublished data); Modem.EvCall Modem.CapPublish].
Proof.
  cbv zeta. split; vm_compute; reflexivity.
Qed.

(** * Further properties *)

(** ** Receiver: the registry under messages and scans *)

Section RegistryInvariant.
Import Py Receiver.

(** What the two threads of the receiver do, one locked step at a time:
    a message is handled, or the update loop makes one turn. *)
Inductive Input :=
| Message (topic : string) (payload : bytes) (now : Q)
| Tick (now : Q).

Definition step (s : State) (i : Input) : State :=
  match i with
  | Message topic payload now => on_message topic payload now s
  | Tick now => scan now s
  end.

Definition run (inputs : list Input) (s : State) : State :=
  fold_left step inputs s.

(** The device a topic names. *)
Definition device_of (topic : string) : string :=
  List.last (split "/" topic) EmptyString.

Lemma dict_keys_set_In {V} (d : dict V) k v x :
  In x (dict_keys (dict_set d k v)) -> In x (dict_keys d) \/ x = k.
Proof.
  induction d as [|[k0 v0] d IH]; cbn [dict_set].
  - intros [<-|[]]. now right.
  - destruct (String.eqb_spec k0 k) as [->|Hne]; [now left|].
    intros [<-|Hin]; [left; now left|].
    destruct (IH Hin) as [H|H]; [left; now right | now right].
Qed.

Lemma dict_set_NoDup {V} (d : dict V) k v :
  NoDup (dict_keys d) -> NoDup (dict_keys (dict_set d k v)).
Proof.
  induction d as [|[k0 v0] d IH]; intros H; cbn [dict_set].
  - repeat constructor. intros [].
  - inversion H as [|? ? Hk0 Hd]; subst.
    destruct (String.eqb_spec k0 k) as [->|Hne]; [exact H|].
    constructor; [|now apply IH].
    intros Hin. destruct (dict_keys_set_In _ _ _ _ Hin) as [Hin'|E];
      [exact (Hk0 Hin') | exact (Hne E)].
Qed.

Lemma on_message_NoDup topic payload now s :
  NoDup (dict_keys (last_data s)) ->
  NoDup (dict_keys (last_data (on_message topic payload now s))).
Proof.
  intros H. unfold on_message.
  destruct (Codec.decode payload) as [[len|]|[[t h] c]]; cbn [last_data emit]; auto.
  now apply dict_set_NoDup.
Qed.

(** X1. The registry never holds a device twice: from the empty
    registry, after any interleaving of handled messages and turns of the
    update loop, the keys of [last_data] are pairwise distinct. *)
Theorem registry_keys_distinct (inputs : list Input) (net0 : list HttpResult) :
  NoDup (dict_keys (last_data (run inputs (mkState [] net0 [])))).
Proof.
  unfold run.
  assert (H : forall s, NoDup (dict_keys (last_data s)) ->
                        NoDup (dict_keys (last_data (fold_left step inputs s)))).
  { induction inputs as [|i inputs IH]; intros s Hs; [exact Hs|].
    cbn [fold_left]. apply IH. destruct i as [topic payload now|now]; cbn [step].
    - now apply on_message_NoDup.
    - now rewrite scan_keys. }
  apply H. constructor.
Qed.



End RegistryInvariant.

(** ** Receiver: what one scan does and does not do *)

Section ScanFacts.
Import Py Receiver.















End ScanFacts.

(** ** From the node's topic and frame to the receiver's record *)

Section TopicAndFrame.
Import Py Receiver.

(** Whether the character [c] occurs in [s]. *)
Fixpoint occurs (c : ascii) (s : string) : bool :=
  match s with
  | EmptyString => false
  | String x s' => Ascii.eqb x c || occurs c s'
  end.

Lemma split_without_sep c s : occurs c s = false -> split c s = [s].
Proof.
  induction s as [|x s IH]; [reflexivity|]. cbn [occurs split].
  intros H. apply orb_false_iff in H. destruct H as [Hx Hs].
  rewrite Hx, (IH Hs). reflexivity.
Qed.

Lemma split_app_sep c a b :
  occurs c a = false -> split c (a ++ String c b) = a :: split c b.
Proof.
  induction a as [|x a IH]; cbn [occurs append split].
  - intros _. now rewrite Ascii.eqb_refl.
  - intros H. apply orb_false_iff in H. destruct H as [Hx Ha].
    rewrite Hx, (IH Ha). reflexivity.
Qed.

Lemma split_cons c s : exists h t, split c s = h :: t.
Proof.
  induction s as [|x s (h & t & E)]; cbn [split]; [eauto|].
  destruct (Ascii.eqb x c); [eauto|]. rewrite E. eauto.
Qed.

Lemma last_split_app c a b d :
  exists h t, split c (a ++ String c b) = h :: t /\ t <> [] /\
              List.last t d = List.last (split c b) d.
Proof.
  destruct (split_cons c b) as (hb & tb & Eb).
  induction a as [|x a (h & t & E & Ht & L)]; cbn [append split].
  - rewrite Ascii.eqb_refl. exists EmptyString, (split c b).
    rewrite Eb. repeat split; congruence.
  - destruct (Ascii.eqb x c).
    + exists EmptyString, (h :: t). rewrite E. repeat split; [discriminate|].
      rewrite <- L. destruct t; [contradiction | reflexivity].
    + rewrite E. exists (String x h), t. auto.
Qed.

Lemma device_of_app pre dev :
  occurs "/" dev = false ->
  device_of (pre ++ String "/" dev) = dev.
Proof.
  intros H. unfold device_of.
  destruct (last_split_app "/" pre dev EmptyString) as (h & t & E & Ht & L).
  rewrite E, (split_without_sep _ _ H) in *. cbn [List.last] in L.
  rewrite <- L. destruct t; [contradiction | reflexivity].
Qed.

(** X8. The receiver recovers the node's identifier from the topic the
    node publishes to, in both variants, provided the identifier holds no
    slash; more generally the device of a topic is what follows its last
    slash. *)
Theorem topic_names_device (DEVICE_ID : string) :
  occurs "/" DEVICE_ID = false ->
  device_of (Sim7080g.MQTT_TOPIC DEVICE_ID) = DEVICE_ID /\
  device_of (Sim868.MQTT_TOPIC DEVICE_ID) = DEVICE_ID /\
  forall pre, device_of (pre ++ String "/" DEVICE_ID) = DEVICE_ID.
Proof.
  intros H.
  assert (E7 : Sim7080g.MQTT_TOPIC DEVICE_ID =
               ("temperature" ++ String "/" DEVICE_ID)%string) by reflexivity.
  assert (E8 : Sim868.MQTT_TOPIC DEVICE_ID =
               ("temperature" ++ String "/" DEVICE_ID)%string) by reflexivity.
  rewrite E7, E8. repeat split; intros; now apply device_of_app.
Qed.

Lemma topic_names_device_witness :
  device_of (Sim7080g.MQTT_TOPIC "e6614c311b7e6f35") = "e6614c311b7e6f35"%string /\
  device_of "site/roof/temperature/e6614c311b7e6f35" = "e6614c311b7e6f35"%string.
Proof.
  destruct (topic_names_device "e6614c311b7e6f35" eq_refl) as (H1 & _ & H3).
  split; [exact H1 | exact (H3 "site/roof/temperature"%string)].
Defined.



Lemma unpack_h_range hi lo : int16_range (unpack_h hi lo).
Proof.
  unfold int16_range, unpack_h. rewrite Z.shiftl_mul_pow2 by lia.
  change (2 ^ 8) with 256.
  pose proof (Z_of_byte_range hi). pose proof (Z_of_byte_range lo).
  destruct (Z.leb_spec 32768 (Z_of_byte hi * 256 + Z_of_byte lo)); lia.
Qed.

(** X10. Whatever six bytes arrive, the decoded reading lies in the
    range a signed 16-bit field can express: temperatures within
    -327.68 .. 327.67 and humidity within -3276.8 .. 3276.7. *)
Theorem decoded_values_bounded (payload : bytes) (t h c : Q) :
  Codec.decode payload = inr (t, h, c) ->
  (-32768 # 100 <= t <= 32767 # 100)%Q /\
  (-32768 # 10 <= h <= 32767 # 10)%Q /\
  (-32768 # 100 <= c <= 32767 # 100)%Q.
Proof.
  unfold Codec.decode. destruct (negb _); [discriminate|].
  destruct payload as [|b0 [|b1 [|b2 [|b3 [|b4 [|b5 [|b6 p]]]]]]];
    cbn [unpack_hhh]; try discriminate.
  intros E. injection E as <- <- <-.
  pose proof (unpack_h_range b0 b1). pose proof (unpack_h_range b2 b3).
  pose proof (unpack_h_range b4 b5). unfold int16_range in *.
  unfold Qle. cbn [Qnum Qden]. repeat split; lia.
Qed.

Lemma decoded_values_bounded_witness :
  (-32768 # 100 <= -1 # 100 <= 32767 # 100)%Q.
Proof.
  refine (proj1 (decoded_values_bounded [xff; xff; x80; x00; x7f; xff]
                   (-1 # 100) (-32768 # 10) (32767 # 100) _)).
  vm_compute. reflexivity.
Defined.

Lemma Z_of_byte_inj a b : Z_of_byte a = Z_of_byte b -> a = b.
Proof.
  unfold Z_of_byte. intros H. apply N2Z.inj in H.
  pose proof (Byte.of_to_N a) as Ha. rewrite H, Byte.of_to_N in Ha. congruence.
Qed.

Lemma unpack_h_inj hi lo hi' lo' :
  unpack_h hi lo = unpack_h hi' lo' -> hi = hi' /\ lo = lo'.
Proof.
  unfold unpack_h. rewrite !Z.shiftl_mul_pow2 by lia. change (2 ^ 8) with 256.
  pose proof (Z_of_byte_range hi). pose proof (Z_of_byte_range lo).
  pose proof (Z_of_byte_range hi'). pose proof (Z_of_byte_range lo').
  intros E.
  assert (Z_of_byte hi = Z_of_byte hi' /\ Z_of_byte lo = Z_of_byte lo').
  { destruct (Z.leb_spec 32768 (Z_of_byte hi * 256 + Z_of_byte lo));
      destruct (Z.leb_spec 32768 (Z_of_byte hi' * 256 + Z_of_byte lo')); lia. }
  split; apply Z_of_byte_inj; tauto.
Qed.

(** X11. No two frames alias: two payloads of six bytes that decode to
    the same reading are the same bytes. *)
Theorem decode_injective (p q : bytes) (x : Q * Q * Q) :
  Codec.decode p = inr x -> Codec.decode q = inr x -> p = q.
Proof.
  unfold Codec.decode.
  destruct (negb (Nat.eqb (List.length p) 6)); [discriminate|].
  destruct (negb (Nat.eqb (List.length q) 6)); [discriminate|].
  destruct p as [|p0 [|p1 [|p2 [|p3 [|p4 [|p5 [|p6 p]]]]]]];
    cbn [unpack_hhh]; try discriminate.
  destruct q as [|q0 [|q1 [|q2 [|q3 [|q4 [|q5 [|q6 q]]]]]]];
    cbn [unpack_hhh]; try discriminate.
  intros <- E. injection E as E1 E2 E3.
  destruct (unpack_h_inj _ _ _ _ E1) as [<- <-].
  destruct (unpack_h_inj _ _ _ _ E2) as [<- <-].
  destruct (unpack_h_inj _ _ _ _ E3) as [<- <-].
  reflexivity.
Qed.

Lemma decode_injective_witness :
  Codec.encode_sensor (-1 # 100) (-32768 # 10) (32767 # 100) =
  [xff; xff; x80; x00; x7f; xff].
Proof.
  apply (decode_injective _ _ ((-1 # 100), (-32768 # 10), (32767 # 100))%Q);
    vm_compute; reflexivity.
Defined.
End TopicAndFrame.

(** ** Sensor node: how long [send_at] blocks, and when it returns early *)

Section SendAtTiming.
Import Py Modem.
Local Open Scope py_scope.

Variable decode : bytes -> option string.


Lemma send_at_loop_marker n : forall t_start timeout response w resp w',
  send_at_loop n t_start timeout response w = (Ret resp, w') ->
  contains b_OK resp || contains b_ERROR resp = true \/
  timeout <= ticks w' - t_start.
Proof.
  induction n as [|n IH]; intros t_start timeout response w resp w' H.
  - discriminate.
  - cbn [send_at_loop] in H. unfold bind, ticks_ms in H.
    destruct (Z.ltb_spec (ticks w - t_start) timeout) as [Hlt|Hge].
    + unfold uart_poll in H.
      destruct (rx w) as [|chunk rest];
        (destruct (_ || _) eqn:Em;
         [injection H as <- <-; left; exact Em | cbn [sleep_ms] in H; eauto]).
    + injection H as <- <-. right. lia.
Qed.



(** X13. The polling loop of [send_at] leaves before the deadline only
    on a response that contains OK or ERROR; and what it returns is what
    the UART delivered, in order, from the start of the call. *)
Theorem send_at_returns_early_on_marker_only (n : nat) (timeout : Z)
    (w : World) (resp : bytes) (w' : World) :
  send_at_loop n (ticks w) timeout [] w = (Ret resp, w') ->
  (contains b_OK resp || contains b_ERROR resp = true \/
   timeout <= ticks w' - ticks w) /\
  exists m, resp = List.concat (firstn m (rx w)) /\ rx w' = skipn m (rx w).
Proof.
  intros H. split; [eapply send_at_loop_marker; eauto|].
  destruct (send_at_loop_response _ _ _ _ _ _ _ H) as (m & R1 & _ & _ & [C|C]);
    [discriminate|].
  injection C as ->. eauto.
Qed.
End SendAtTiming.

(** The modem answers in two pieces; the second completes the OK, half a
    second before the deadline. *)
Lemma send_at_returns_early_on_marker_only_witness :
  let w := RefRuntime.world0
             [RefRuntime.chunk "+CSQ: 15"; []; RefRuntime.chunk ",99 OK";
              RefRuntime.chunk "late"] [] in
  exists w',
    Modem.send_at_loop (Modem.polls 2000) 0 2000 [] w =
      (Modem.Ret (RefRuntime.chunk "+CSQ: 15,99 OK"), w') /\
    Modem.ticks w' = 200 /\ Modem.rx w' = [RefRuntime.chunk "late"].
Proof.
  cbv zeta. eexists. split; [vm_compute; reflexivity|].
  split; [reflexivity|].
  destruct (send_at_returns_early_on_marker_only (Modem.polls 2000) 2000
              (RefRuntime.world0
                 [RefRuntime.chunk "+CSQ: 15"; []; RefRuntime.chunk ",99 OK";
                  RefRuntime.chunk "late"] [])
              (RefRuntime.chunk "+CSQ: 15,99 OK") _ eq_refl) as [_ (m & _ & _)].
  reflexivity.
Defined.


(** ** Sensor node: which exceptions escape, and the shape of the retries *)

Section Exceptions.
Import Py Modem.
Local Open Scope py_scope.

Variable decode : bytes -> option string.
Variable DEVICE_ID : string.

(** [m] never raises. *)
Definition safe {A} (m : M A) : Prop :=
  forall w r w', m w = (r, w') -> forall e, r <> Raise e.

Lemma safe_bind {A B} (m : M A) (k : A -> M B) :
  safe m -> (forall a, safe (k a)) -> safe (bind m k).
Proof.
  intros Hm Hk w r w' H.
  destruct (bind_inv _ _ _ _ _ H) as [(a & w1 & H1 & H2)|[(e & H1 & ->)|[H1 ->]]].
  - eapply Hk; eauto.
  - exfalso. eapply Hm; eauto.
  - discriminate.
Qed.

Lemma safe_sleep_ret {A} ms (a : A) : safe (sleep_ms ms ;; ret a).
Proof. intros w r w' H. injection H as <- <-. discriminate. Qed.

Lemma failed_attempts_not_published data k :
  ~ In (EvPrint (MsgPublished data)) (failed_attempts k).
Proof.
  induction k as [|k IH]; cbn; [tauto|]. intros [H|[H|H]]; try discriminate.
  exact (IH H).
Qed.

(** The outcomes of a publish, for any attempt and [connectBroker] that
    behave as those of the two variants do. *)
Lemma spec_publish_outcomes data attempt connectBroker w r w' :
  attempt_post data attempt -> connect_post connectBroker ->
  spec_publish attempt connectBroker w = (r, w') ->
  (r = Ret true \/ r = Ret false \/ r = Fuel) /\
  (r = Ret true <-> In (EvPrint (MsgPublished data)) (since w w')) /\
  (r = Ret true ->
   exists k, (k < 3)%nat /\
     filter policy (since w w') =
     EvPrint (MsgPublished data) :: failed_attempts k ++ [EvCall CapPublish]).
Proof.
  intros Ha Hc H. unfold spec_publish, bind, enter, log in H.
  destruct (spec_retry_cases data _ _ Ha Hc _ _ _ _ H) as (new & E & C).
  cbn [trace] in E.
  assert (Es : since w w' = new ++ [EvCall CapPublish])
    by (apply since_app; now rewrite E, <- app_assoc).
  rewrite Es.
  assert (Hin : In (EvPrint (MsgPublished data)) (new ++ [EvCall CapPublish]) ->
                In (EvPrint (MsgPublished data)) (filter policy new)).
  { intros Hi. apply in_app_or in Hi. destruct Hi as [Hi|[Hi|[]]]; [|discriminate].
    apply filter_In. now split. }
  destruct C as [(-> & k & Hk & Fk)|[(-> & Fk)|(-> & k & Hk & Fk)]].
  - split; [auto|]. split.
    + split; [intros _|reflexivity]. apply in_or_app. left.
      assert (Hf : In (EvPrint (MsgPublished data)) (filter policy new))
        by (rewrite Fk; now left).
      now apply filter_In in Hf.
    + intros _. exists k. split; [exact Hk|].
      rewrite filter_app, Fk. reflexivity.
  - split; [auto|]. split; [|discriminate].
    split; [discriminate|]. intros Hi. apply Hin in Hi. rewrite Fk in Hi.
    destruct Hi as [Hi|Hi]; [discriminate|].
    now apply failed_attempts_not_published in Hi.
  - split; [auto|]. split; [|discriminate].
    split; [discriminate|]. intros Hi. apply Hin in Hi. rewrite Fk in Hi.
    now apply failed_attempts_not_published in Hi.
Qed.

(** X14. [mqtt_publish] returns [True] exactly when one of its attempts
    published; it has then made fewer than three failed attempts, each
    followed by one [mqtt_connect]. In both variants. *)
Theorem publish_true_iff_published (fuel : nat) (topic : string) (data : bytes)
    (w : World) :
  (forall r w',
     Sim7080g.mqtt_publish decode DEVICE_ID fuel topic data w = (r, w') ->
     (r = Ret true <-> In (EvPrint (MsgPublished data)) (since w w')) /\
     (r = Ret true ->
      exists k, (k < 3)%nat /\
        filter policy (since w w') =
        EvPrint (MsgPublished data) :: failed_attempts k ++ [EvCall CapPublish])) /\
  (forall r w',
     Sim868.mqtt_publish decode DEVICE_ID fuel topic data w = (r, w') ->
     (r = Ret true <-> In (EvPrint (MsgPublished data)) (since w w')) /\
     (r = Ret true ->
      exists k, (k < 3)%nat /\
        filter policy (since w w') =
        EvPrint (MsgPublished data) :: failed_attempts k ++ [EvCall CapPublish])).
Proof.
  split; intros r w' H.
  - rewrite nb_publish_refines in H.
    exact (proj2 (spec_publish_outcomes data _ _ w r w'
                    (nb_publish_try_post decode topic data)
                    (nb_connect_post decode DEVICE_ID fuel) H)).
  - rewrite gprs_publish_refines in H.
    exact (proj2 (spec_publish_outcomes data _ _ w r w'
                    (gprs_publish_try_post decode topic data)
                    (gprs_connect_post decode DEVICE_ID fuel) H)).
Qed.

Lemma gprs_publish_safe fuel topic data :
  safe (Sim868.mqtt_publish decode DEVICE_ID fuel topic data).
Proof.
  intros w r w' H e ->. rewrite gprs_publish_refines in H.
  destruct (proj1 (spec_publish_outcomes data _ _ w _ w'
                     (gprs_publish_try_post decode topic data)
                     (gprs_connect_post decode DEVICE_ID fuel) H))
    as [?|[?|?]]; discriminate.
Qed.

Lemma gprs_cycle_safe fuel r st :
  safe (Sim868.main_cycle decode DEVICE_ID fuel r st).
Proof.
  unfold Sim868.main_cycle.
  destruct (r_temp r), (r_hum r), (r_cpu r); try apply safe_sleep_ret.
  destruct (_ || _); [|apply safe_sleep_ret].
  apply safe_bind; [apply gprs_publish_safe | intros _; apply safe_sleep_ret].
Qed.

(** X15. No exception escapes [mqtt_connect] or [mqtt_publish], in
    either variant: whatever the UART does they return or keep retrying.
    Hence the turns of the GPRS [main] loop, which reach the modem through
    [mqtt_publish] only, raise nothing once the readings are taken. *)
Theorem uart_errors_stay_inside_publish (fuel : nat) :
  (forall w r w',
     Sim7080g.mqtt_connect decode DEVICE_ID fuel w = (r, w') ->
     r = Ret tt \/ r = Fuel) /\
  (forall w r w',
     Sim868.mqtt_connect decode DEVICE_ID fuel w = (r, w') ->
     r = Ret tt \/ r = Fuel) /\
  (forall topic data w r w',
     Sim7080g.mqtt_publish decode DEVICE_ID fuel topic data w = (r, w') ->
     r = Ret true \/ r = Ret false \/ r = Fuel) /\
  (forall topic data w r w',
     Sim868.mqtt_publish decode DEVICE_ID fuel topic data w = (r, w') ->
     r = Ret true \/ r = Ret false \/ r = Fuel) /\
  (forall readings st w r w',
     Sim868.main_loop decode DEVICE_ID fuel readings st w = (r, w') ->
     forall e, r <> Raise e).
Proof.
  split; [intros w r w' H; exact (proj1 (nb_connect_post decode DEVICE_ID fuel w r w' H))|].
  split; [intros w r w' H; exact (proj1 (gprs_connect_post decode DEVICE_ID fuel w r w' H))|].
  split; [|split].
  - intros topic data w r w' H. rewrite nb_publish_refines in H.
    exact (proj1 (spec_publish_outcomes data _ _ w r w'
                    (nb_publish_try_post decode topic data)
                    (nb_connect_post decode DEVICE_ID fuel) H)).
  - intros topic data w r w' H. rewrite gprs_publish_refines in H.
    exact (proj1 (spec_publish_outcomes data _ _ w r w'
                    (gprs_publish_try_post decode topic data)
                    (gprs_connect_post decode DEVICE_ID fuel) H)).
  - intros readings. induction readings as [|rd readings IH]; intros st.
    + intros w r w' H. injection H as <- <-. discriminate.
    + cbn [Sim868.main_loop].
      apply safe_bind; [apply gprs_cycle_safe | intros st'; exact (IH st')].
Qed.

End Exceptions.

Lemma uart_errors_stay_inside_publish_witness :
  let w := RefRuntime.world0 [] (repeat true 12) in
  let r := fst (Sim868.mqtt_publish RefRuntime.decode "dev" 4 "temperature/dev"
                  (Codec.encode_sensor 21.5 40 30) w) in
  r = Modem.Ret true \/ r = Modem.Ret false \/ r = Modem.Fuel.
Proof.
  cbv zeta.
  exact (proj1 (proj2 (proj2 (proj2
           (uart_errors_stay_inside_publish RefRuntime.decode "dev" 4))))
           _ _ _ _ _ (surjective_pairing _)).
Defined.

Section SignalQueryFailure.
Import Py Modem.
Local Open Scope py_scope.

Variable decode : bytes -> option string.
Variable int : string -> option Z.
Variable DEVICE_ID : string.

(** X16. The NB-IoT loop is not so protected: its signal query runs
    outside any [try], so when the UART refuses that write the exception
    leaves [main]'s loop at once, before any reading is looked at. *)
Theorem nb_signal_query_failure_escapes (w : World) (rest : list bool) :
  wr w = true :: rest ->
  (forall fuel r st,
     fst (Sim7080g.main_cycle decode int DEVICE_ID fuel r st w) = Raise OSError) /\
  (forall fuel r readings st,
     fst (Sim7080g.main_loop decode int DEVICE_ID fuel (r :: readings) st w) =
     Raise OSError) /\
  (forall fuel readings,
     fst (Sim7080g.main decode int DEVICE_ID fuel readings w) = Raise OSError).
Proof.
  intros Hwr.
  assert (Hc : forall fuel r st,
             fst (Sim7080g.main_cycle decode int DEVICE_ID fuel r st w) =
             Raise OSError).
  { intros fuel r st.
    unfold Sim7080g.main_cycle, Sim7080g.nb_iot_check_signal, Sim7080g.send_at,
      send_at.
    unfold bind, enter, log, uart_write. cbn [wr]. rewrite Hwr. reflexivity. }
  split; [exact Hc|]. split.
  - intros fuel r readings st. cbn [Sim7080g.main_loop]. unfold bind at 1.
    specialize (Hc fuel r st).
    destruct (Sim7080g.main_cycle decode int DEVICE_ID fuel r st w) as [[a|e|] w1];
      cbn [fst] in Hc; try discriminate. injection Hc as ->. reflexivity.
  - intros fuel readings.
    unfold Sim7080g.main, Sim7080g.nb_iot_init, Sim7080g.send_at, send_at.
    unfold bind, enter, print, log, uart_write. cbn [wr]. rewrite Hwr. reflexivity.
Qed.
End SignalQueryFailure.

Lemma publish_true_iff_published_witness :
  let w := RefRuntime.world0 [] [true; false; false; false; false; false] in
  let data := Codec.encode_sensor 21.5 40 30 in
  exists w',
    Sim7080g.mqtt_publish RefRuntime.decode "dev" 1 "temperature/dev" data w =
      (Modem.Ret true, w') /\
    exists k, (k < 3)%nat /\
      filter policy (since w w') =
      Modem.EvPrint (Modem.MsgPublished data) :: failed_attempts k
        ++ [Modem.EvCall Modem.CapPublish].
Proof.
  cbv zeta.
  destruct (Sim7080g.mqtt_publish RefRuntime.decode "dev" 1 "temperature/dev"
              (Codec.encode_sensor 21.5 40 30)
              (RefRuntime.world0 [] [true; false; false; false; false; false]))
    as [r w'] eqn:E.
  pose proof (f_equal fst E) as R. cbn [fst] in R. vm_compute in R. subst r.
  exists w'. split; [reflexivity|].
  exact (proj2 (proj1 (publish_true_iff_published RefRuntime.decode "dev" 1
                         "temperature/dev"%string (Codec.encode_sensor 21.5 40 30) _)
                  _ w' E) eq_refl).
Defined.

Lemma nb_signal_query_failure_escapes_witness :
  fst (Sim7080g.main_cycle RefRuntime.decode RefRuntime.int "dev" 1
         (Modem.mkReading (Some 21.5%Q) (Some 40%Q) (Some 30%Q)) Sim7080g.initial
         (RefRuntime.world0 [] [true])) = Modem.Raise Modem.OSError.
Proof.
  exact (proj1 (nb_signal_query_failure_escapes RefRuntime.decode RefRuntime.int
                  "dev"%string
                  (RefRuntime.world0 [] [true]) [] eq_refl) 1%nat _ _).
Defined.

(** ** Sensor node: [mqtt_connect] retries with a fixed backoff *)

Section Backoff.
Import Py Modem.
Local Open Scope py_scope.

Variable decode : bytes -> option string.

Section Generic.
Variable sequence : M unit.

(** The sequence starts with a UART write: when that write raises, the
    sequence raises, having done nothing else. *)
Hypothesis sequence_fails : forall w rest,
  wr w = true :: rest ->
  exists ev, shown ev = false /\
    sequence w = (Raise OSError, mkWorld (ticks w) (rx w) rest (ev :: trace w)).

Hypothesis sequence_calm :
  calmly decode [EvPrint MsgConnected] (fun _ => True) sequence.


End Generic.

Variable DEVICE_ID : string.





End Backoff.


(** ** Sensor node: the control loop over a series of readings *)

Section ControlLoop.
Import Py Modem.
Local Open Scope py_scope.

Variable decode : bytes -> option string.
Variable DEVICE_ID : string.






End ControlLoop.



Section NbControlLoop.
Import Py Modem.
Local Open Scope py_scope.

Variable decode : bytes -> option string.
Variable int : string -> option Z.
Variable DEVICE_ID : string.

Definition nb_changed (st : Sim7080g.Last) (r : Reading) : bool :=
  match r_temp r, r_hum r, r_cpu r with
  | Some t, Some h, Some _ =>
      differs t (Sim7080g.last_temp st) || differs h (Sim7080g.last_hum st)
  | _, _, _ => false
  end.

Definition nb_next (st : Sim7080g.Last) (r : Reading) : Sim7080g.Last :=
  if nb_changed st r then Sim7080g.mkLast (r_temp r) (r_hum r) (r_cpu r) else st.

Fixpoint nb_changes (st : Sim7080g.Last) (readings : list Reading) : nat :=
  match readings with
  | [] => 0
  | r :: rest =>
      (if nb_changed st r then 1 else 0) + nb_changes (nb_next st r) rest
  end.

Lemma nb_cycle_any fuel r st w st' w' :
  Sim7080g.main_cycle decode int DEVICE_ID fuel r st w = (Ret st', w') ->
  exists new, trace w' = new ++ trace w /\
    publishes new = (if nb_changed st r then 1 else 0)%nat /\
    st' = nb_next st r.
Proof.
  intros H. unfold Sim7080g.main_cycle in H.
  apply bind_ret_inv in H. destruct H as (rssi & w1 & H1 & H).
  apply bind_ret_inv in H. destruct H as ([] & w2 & H2 & H).
  destruct (nb_check_no_publish _ _ _ _ _ H1) as (n1 & E1 & F1).
  destruct (nb_rebuild_no_publish decode int DEVICE_ID fuel rssi _ _ _ H2)
    as (n2 & E2 & F2).
  assert (G : exists n3, trace w' = n3 ++ trace w2 /\
                publishes n3 = (if nb_changed st r then 1 else 0)%nat /\
                st' = nb_next st r).
  { cbv beta in H. revert H. unfold nb_next, nb_changed.
    destruct (r_temp r) as [t|], (r_hum r) as [h|], (r_cpu r) as [c|];
      try (intros H; injection H as <- <-; exists []; now repeat split).
    destruct (differs t (Sim7080g.last_temp st) || differs h (Sim7080g.last_hum st)).
    - intros H. apply bind_ret_inv in H. destruct H as (b & w3 & H3 & H).
      injection H as <- <-. cbn [trace].
      destruct (nb_publish_once _ _ _ _ _ _ _ _ H3) as (new & E & P).
      exists new. now repeat split.
    - intros H. injection H as <- <-. exists []. now repeat split. }
  destruct G as (n3 & E3 & P3 & S3).
  exists (n3 ++ n2 ++ n1). split; [|split; [|exact S3]].
  - rewrite E3, E2, E1. now rewrite <- !app_assoc.
  - rewrite !publishes_app, P3, (publishes_none _ F1), (publishes_none _ F2). lia.
Qed.

(** X20. The same holds of the NB-IoT loop, whose cycles also check the
    signal and may rebuild the session: over a completed series of
    readings it has attempted exactly one publish per reading whose
    temperature or humidity differs from the last pair it tried to send,
    and none on a rebuild or on a failed sensor read. *)
Theorem nb_loop_publishes_each_change (fuel : nat) (readings : list Reading)
    (st : Sim7080g.Last) (w : World) (st' : Sim7080g.Last) (w' : World) :
  Sim7080g.main_loop decode int DEVICE_ID fuel readings st w = (Ret st', w') ->
  publishes (since w w') = nb_changes st readings /\
  st' = fold_left nb_next readings st.
Proof.
  intros H.
  assert (G : exists new, trace w' = new ++ trace w /\
                publishes new = nb_changes st readings /\
                st' = fold_left nb_next readings st).
  { revert st w H. induction readings as [|r readings IH]; intros st w H.
    - injection H as <- <-. exists []. now repeat split.
    - cbn [Sim7080g.main_loop] in H. apply bind_ret_inv in H.
      destruct H as (st1 & w1 & H1 & H2).
      destruct (nb_cycle_any _ _ _ _ _ _ H1) as (n1 & E1 & P1 & ->).
      destruct (IH _ _ H2) as (n2 & E2 & P2 & ->).
      exists (n2 ++ n1). split; [now rewrite E2, E1, app_assoc|].
      split; [|reflexivity].
      rewrite publishes_app, P1, P2. cbn [nb_changes]. lia. }
  destruct G as (new & E & P & S). now rewrite (since_app _ _ _ E).
Qed.
End NbControlLoop.

(** The signal is lost before the second reading: the session is rebuilt,
    and the unchanged pair is still not published again. *)
Lemma nb_loop_publishes_each_change_witness :
  let readings :=
    [Modem.mkReading (Some 21.5%Q) (Some 40%Q) (Some 30%Q);
     Modem.mkReading (Some 21.5%Q) (Some 40%Q) (Some 31%Q)] in
  let w := RefRuntime.world0
             [RefRuntime.chunk "+CSQ: 15,99 OK"; RefRuntime.chunk "OK";
              RefRuntime.chunk "+CSQ: 99,99 OK"; RefRuntime.chunk "OK";
              RefRuntime.chunk "OK"; RefRuntime.chunk "OK"; RefRuntime.chunk "OK";
              RefRuntime.chunk "+CSQ: 12,99 OK"] [] in
  exists st' w',
    Sim7080g.main_loop RefRuntime.decode RefRuntime.int "dev" 2 readings
      Sim7080g.initial w = (Modem.Ret st', w') /\
    publishes (since w w') = 1%nat /\
    In (Modem.EvCall Modem.CapInit) (Modem.trace w').
Proof.
  cbv zeta.
  destruct (Sim7080g.main_loop RefRuntime.decode RefRuntime.int "dev" 2
              [Modem.mkReading (Some 21.5%Q) (Some 40%Q) (Some 30%Q);
               Modem.mkReading (Some 21.5%Q) (Some 40%Q) (Some 31%Q)]
              Sim7080g.initial
              (RefRuntime.world0
                 [RefRuntime.chunk "+CSQ: 15,99 OK"; RefRuntime.chunk "OK";
                  RefRuntime.chunk "+CSQ: 99,99 OK"; RefRuntime.chunk "OK";
                  RefRuntime.chunk "OK"; RefRuntime.chunk "OK"; RefRuntime.chunk "OK";
                  RefRuntime.chunk "+CSQ: 12,99 OK"] []))
    as [r w'] eqn:E.
  pose proof (f_equal fst E) as R. cbn [fst] in R. vm_compute in R.
  pose proof (f_equal snd E) as W. cbn [snd] in W.
  subst r. eexists _, w'. split; [reflexivity|].
  destruct (nb_loop_publishes_each_change RefRuntime.decode RefRuntime.int "dev" 2
              _ _ _ _ _ E) as [P _].
  split; [exact P|]. rewrite <- W. vm_compute. tauto.
Defined.

(** ** Sensor node: reading the signal quality out of the response *)

Section ParseRssi.
Import Py Modem.
Local Open Scope py_scope.

Variable decode : bytes -> option string.
Variable int : string -> option Z.

Lemma split_head_prefix c a b :
  occurs c a = false -> exists b' t, split c (a ++ b) = (a ++ b')%string :: t.
Proof.
  induction a as [|x a IH]; cbn [occurs append split].
  - intros _. destruct (split_cons c b) as (h & t & E). rewrite E. eauto.
  - intros H. apply orb_false_iff in H. destruct H as [Hx Ha].
    rewrite Hx. destruct (IH Ha) as (b' & t & E). rewrite E. eauto.
Qed.

Lemma append_assoc (a b c : string) : ((a ++ b) ++ c = a ++ b ++ c)%string.
Proof. induction a as [|x a IH]; cbn; [reflexivity | now rewrite IH]. Qed.

Lemma occurs_app c a b : occurs c (a ++ b) = occurs c a || occurs c b.
Proof.
  induction a as [|x a IH]; cbn; [reflexivity|]. now rewrite IH, orb_assoc.
Qed.

(** X21. The reading [nb_iot_check_signal] takes from a response is the
    text between its first colon and the comma that follows, stripped and
    handed to [int]; a response without a colon (an empty one after a
    timeout, a bare ERROR) has no reading, and then the function returns
    0. *)
Theorem rssi_is_first_field_after_colon (pre field rest : string) :
  occurs ":" pre = false ->
  occurs ":" field = false ->
  occurs "," field = false ->
  Sim7080g.parse_rssi int (pre ++ String ":" (field ++ String "," rest)) =
    int (strip field) /\
  (forall resp, occurs ":" resp = false -> Sim7080g.parse_rssi int resp = None) /\
  (forall w resp w1,
     occurs ":" resp = false ->
     Sim7080g.send_at decode "AT+CSQ" 2000 (entered CapCheckSignal w) = (Ret resp, w1) ->
     Sim7080g.nb_iot_check_signal decode int w = (Ret 0, w1)).
Proof.
  intros Hpre Hf1 Hf2.
  assert (Hnone : forall resp, occurs ":" resp = false ->
                               Sim7080g.parse_rssi int resp = None).
  { intros resp H. unfold Sim7080g.parse_rssi.
    now rewrite (split_without_sep _ _ H). }
  split; [|split; [exact Hnone|]].
  - unfold Sim7080g.parse_rssi. rewrite (split_app_sep _ _ _ Hpre).
    assert (Hc : occurs ":" (field ++ String "," EmptyString) = false).
    { rewrite occurs_app, Hf1. reflexivity. }
    destruct (split_head_prefix ":" _ rest Hc) as (b' & t & E).
    rewrite append_assoc in E. cbn [append] in E.
    rewrite append_assoc in E. cbn [append] in E.
    rewrite E. cbn [nth_error].
    now rewrite (split_app_sep _ _ _ Hf2).
  - intros w resp w1 H Hs.
    exact (check_parse_failure decode int w resp w1 Hs (Hnone resp H)).
Qed.
End ParseRssi.

Lemma rssi_is_first_field_after_colon_witness :
  Sim7080g.parse_rssi RefRuntime.int "+CSQ: 17,99 OK" = Some 17 /\
  Sim7080g.parse_rssi RefRuntime.int "ERROR" = None.
Proof.
  destruct (rssi_is_first_field_after_colon RefRuntime.decode RefRuntime.int
              "+CSQ" " 17" "99 OK" eq_refl eq_refl eq_refl) as (H1 & H2 & _).
  split; [exact H1 | exact (H2 "ERROR"%string eq_refl)].
Defined.

(** ** Sensor node: how long the initialisation blocks *)

Section InitTiming.
Import Py Modem.
Local Open Scope py_scope.

Variable decode : bytes -> option string.






End InitTiming.

